(** * KRGGEMINI: the PDF-to-knowledge-graph pipeline of [GEMINI.py]

    A shallow embedding of the four processing functions of [GEMINI.py]
    ([extract_text_from_pdf], [extract_knowledge_triples],
    [build_and_save_graph], [upload_pdf]) together with the library
    behaviour they rely on: Python values and truthiness, [str.strip],
    [re.sub] with the fence pattern, [json.loads], and the part of
    [networkx.DiGraph] that [add_edge] touches. *)

From Stdlib Require Import ZArith NArith Ascii String List Bool Lia.
From Stdlib Require Import Floats.SpecFloat.
From stdpp Require Import base option list countable gmap strings fin_maps.

Set Warnings "-register-all".
Open Scope Z_scope.

(** ** Python strings

    A Python [str] is a sequence of Unicode code points. *)

Abbreviation pystr := (list N).

(** An ASCII literal as a [str]. *)
Definition lit (s : string) : pystr :=
  map N_of_ascii (list_ascii_of_string s).

Definition NL : N := 10.   (* the newline *)
Definition DQ : N := 34.   (* the double quote *)
Definition BT : N := 96.   (* the backtick *)

(** The same, with every apostrophe standing for a double quote, so
    that JSON text can be written down. *)
Definition jlit (s : string) : pystr :=
  map (fun c => if N.eqb c 39 then DQ else c) (lit s).

(** [str.isspace] on one character: the code points with bidirectional
    type WS, B or S, or general category Zs. *)
Definition space_chars : list N :=
  [9; 10; 11; 12; 13; 28; 29; 30; 31; 32; 133; 160; 5760;
   8192; 8193; 8194; 8195; 8196; 8197; 8198; 8199; 8200; 8201; 8202;
   8232; 8233; 8239; 8287; 12288]%N.

Definition py_isspace (c : N) : bool :=
  existsb (N.eqb c) space_chars.

(** [str.lstrip()], [str.rstrip()] and [str.strip()] without argument. *)
Fixpoint lstrip (s : pystr) : pystr :=
  match s with
  | c :: rest => if py_isspace c then lstrip rest else s
  | [] => []
  end.

Definition rstrip (s : pystr) : pystr := rev (lstrip (rev s)).

Definition strip (s : pystr) : pystr := rstrip (lstrip s).

(** [s.startswith(p)]. *)
Fixpoint startswith (p s : pystr) : bool :=
  match p, s with
  | [], _ => true
  | a :: p', b :: s' => N.eqb a b && startswith p' s'
  | _ :: _, [] => false
  end.

(** [sep.join(parts)]. *)
Fixpoint str_join (sep : pystr) (parts : list pystr) : pystr :=
  match parts with
  | [] => []
  | [p] => p
  | p :: rest => p ++ sep ++ str_join sep rest
  end.

(** ** Python values

    The values [json.loads] can produce. A [dict] keeps its keys in
    insertion order; a [float] is an IEEE 754 binary64. *)

Inductive pyvalue : Type :=
  | PyNone
  | PyBool (b : bool)
  | PyInt (z : Z)
  | PyFloat (f : spec_float)
  | PyStr (s : pystr)
  | PyList (l : list pyvalue)
  | PyDict (d : list (pystr * pyvalue)).

(** Truth value testing, as [if x:] and [not x] perform it. *)
Definition truthy (v : pyvalue) : bool :=
  match v with
  | PyNone => false
  | PyBool b => b
  | PyInt z => negb (Z.eqb z 0)
  | PyFloat (S754_zero _) => false
  | PyFloat _ => true
  | PyStr s => negb (Nat.eqb (length s) 0)
  | PyList l => negb (Nat.eqb (length l) 0)
  | PyDict d => negb (Nat.eqb (length d) 0)
  end.

(** Exceptions the pipeline can meet. *)
Inductive exn :=
  | JSONDecodeError
  | TypeError
  | AttributeError
  | ValueError
  | FileNotFoundError
  | FileDataError          (* [fitz.open] on a file it cannot read *)
  | ModelServiceError.     (* the language-model client failed *)

Inductive res (A : Type) : Type :=
  | Ok (a : A)
  | Raise (e : exn).
Arguments Ok {A} a.
Arguments Raise {A} e.

(** [d.get(k)] on a dict body, and [d[k] = v]. *)
Fixpoint dict_get (d : list (pystr * pyvalue)) (k : pystr) : option pyvalue :=
  match d with
  | [] => None
  | (k', v) :: rest => if decide (k' = k) then Some v else dict_get rest k
  end.

Fixpoint dict_set (d : list (pystr * pyvalue)) (k : pystr) (v : pyvalue)
  : list (pystr * pyvalue) :=
  match d with
  | [] => [(k, v)]
  | (k', v') :: rest =>
      if decide (k' = k) then (k, v) :: rest else (k', v') :: dict_set rest k v
  end.

(** [x.get(k)] on an arbitrary value: only a dict has the method. *)
Definition py_get (x : pyvalue) (k : pystr) : res pyvalue :=
  match x with
  | PyDict d => Ok (default PyNone (dict_get d k))
  | _ => Raise AttributeError
  end.

(** [for item in x]: the items a value yields, or [TypeError]. *)
Definition py_iter (x : pyvalue) : res (list pyvalue) :=
  match x with
  | PyList l => Ok l
  | PyDict d => Ok (map (fun kv => PyStr (fst kv)) d)
  | PyStr s => Ok (map (fun c => PyStr [c]) s)
  | _ => Raise TypeError
  end.

(** ** The fence pattern

    [re.sub] with the pattern [^```(?:json)?|```$], the empty
    replacement and [flags=re.MULTILINE]: every match is deleted.
    With [re.MULTILINE], [^] holds at the start of the text and right
    after every newline, and [$] holds at the end of the text and right
    before every newline. *)

Definition ticks : pystr := [BT; BT; BT].

Definition at_eol (s : pystr) : bool :=
  match s with
  | [] => true
  | c :: _ => N.eqb c NL
  end.

(** The length of the match of the pattern that starts at the current
    position, if there is one. [bol] tells whether [^] holds here. The
    first alternative is tried first, and its optional group is greedy. *)
Definition fence_match (bol : bool) (s : pystr) : option nat :=
  if bol && startswith ticks s then
    Some (if startswith (lit "json") (drop 3 s) then 7%nat else 3%nat)
  else if startswith ticks s && at_eol (drop 3 s) then Some 3%nat
  else None.

(** The substitution, scanning left to right. [skip] counts the
    characters of the current match that are still to be deleted. *)
Fixpoint re_sub_fence (skip : nat) (bol : bool) (s : pystr) : pystr :=
  match s with
  | [] => []
  | c :: rest =>
      match skip with
      | S k => re_sub_fence k false rest
      | O =>
          match fence_match bol s with
          | Some n => re_sub_fence (Nat.pred n) false rest
          | None => c :: re_sub_fence 0 (N.eqb c NL) rest
          end
      end
  end.

(** [raw_text] and [cleaned_text] of [extract_knowledge_triples]. *)
Definition raw_of (response_text : pystr) : pystr := strip response_text.

Definition cleaned_of (raw_text : pystr) : pystr :=
  strip (re_sub_fence 0 true raw_text).

(** ** [json.loads]

    The decoder of CPython's [json] module with its default settings
    ([strict=True], no hooks), on a [str]: a tokenizer that reads the
    text one character at a time, followed by a parser of the token
    sequence. Every way the decoder can fail on a [str] raises
    [JSONDecodeError]. Interpreter resource limits (recursion depth,
    the digit limit of [int]) are outside the model. *)

Module Json.

Inductive token :=
  | TLBrack | TRBrack | TLBrace | TRBrace | TComma | TColon
  | TStr (s : pystr)
  | TAtom (v : pyvalue).

(** *** Numbers *)

(** [float(text)] for the decimal [(-1)^neg * m * 10^e]: the nearest
    binary64, ties to even, with overflow to infinity. *)
Definition float_of_decimal (neg : bool) (m : Z) (e : Z) : spec_float :=
  match m with
  | Zpos p =>
      let num := if Z.leb 0 e then Z.to_pos (Zpos p * 10 ^ e) else p in
      let den := if Z.leb 0 e then 1%positive else Z.to_pos (10 ^ (- e)) in
      SFdiv 53 1024 (S754_finite neg num 0) (S754_finite false den 0)
  | _ => S754_zero neg
  end.

Inductive numphase :=
  | NZero      (* the integer part is a single 0 *)
  | NInt       (* in the integer part *)
  | NDot       (* right after the decimal point *)
  | NFrac      (* in the fraction *)
  | NExp       (* right after e or E *)
  | NExpSign   (* right after the sign of the exponent *)
  | NExpDig.   (* in the exponent *)

Record numacc := mkNum {
  n_neg : bool;     (* a leading minus sign *)
  n_mant : Z;       (* the digits of integer part and fraction *)
  n_fdig : Z;       (* how many of them belong to the fraction *)
  n_eneg : bool;    (* a minus sign in the exponent *)
  n_exp : Z         (* the digits of the exponent *)
}.

Definition is_digit (c : N) : bool := N.leb 48 c && N.leb c 57.
Definition digit_val (c : N) : Z := Z.of_N c - 48.

(** The value of a complete number: an [int] when there is neither
    fraction nor exponent, a [float] otherwise. *)
Definition num_value (ph : numphase) (a : numacc) : option pyvalue :=
  match ph with
  | NZero | NInt =>
      Some (PyInt (if n_neg a then - n_mant a else n_mant a))
  | NFrac | NExpDig =>
      let e := (if n_eneg a then - n_exp a else n_exp a) - n_fdig a in
      Some (PyFloat (float_of_decimal (n_neg a) (n_mant a) e))
  | NDot | NExp | NExpSign => None
  end.

(** *** Strings *)

Definition is_high_surrogate (u : N) : bool := N.leb 55296 u && N.leb u 56319.
Definition is_low_surrogate (u : N) : bool := N.leb 56320 u && N.leb u 57343.
Definition join_surrogates (h l : N) : N :=
  (65536 + N.lor (N.shiftl (h - 55296) 10) (l - 56320))%N.

Definition hex_val (c : N) : option N :=
  if N.leb 48 c && N.leb c 57 then Some (c - 48)%N
  else if N.leb 97 c && N.leb c 102 then Some (c - 87)%N
  else if N.leb 65 c && N.leb c 70 then Some (c - 55)%N
  else None.

(** The character a backslash escape other than [\u] stands for. *)
Definition escape_char (c : N) : option N :=
  if N.eqb c 34 then Some 34%N          (* quote *)
  else if N.eqb c 92 then Some 92%N     (* backslash *)
  else if N.eqb c 47 then Some 47%N     (* slash *)
  else if N.eqb c 98 then Some 8%N      (* b: backspace *)
  else if N.eqb c 102 then Some 12%N    (* f: form feed *)
  else if N.eqb c 110 then Some 10%N    (* n: newline *)
  else if N.eqb c 114 then Some 13%N    (* r: carriage return *)
  else if N.eqb c 116 then Some 9%N     (* t: tab *)
  else None.

(** *** The tokenizer *)

Inductive lstate :=
  | LIdle                                           (* between tokens *)
  | LLit (rest : pystr) (v : pyvalue)               (* inside null, true, ... *)
  | LMinus                                          (* after a leading - *)
  | LNum (ph : numphase) (a : numacc)               (* inside a number *)
  | LStr (acc : pystr) (hi : option N)              (* inside a string *)
  | LEsc (acc : pystr) (hi : option N)              (* after a backslash *)
  | LUni (acc : pystr) (hi : option N) (k : nat) (u : N).  (* inside \uXXXX *)

(** A string is decoded into [acc]; [hi] is a high surrogate that was
    just read as [\uXXXX] and may still pair with a low one. *)
Definition flush (acc : pystr) (hi : option N) : pystr :=
  match hi with
  | Some h => acc ++ [h]
  | None => acc
  end.

Definition is_json_ws (c : N) : bool :=
  N.eqb c 32 || N.eqb c 9 || N.eqb c 10 || N.eqb c 13.

Definition num0 (neg : bool) (d : Z) : numacc := mkNum neg d 0 false 0.

(** A character met between tokens. *)
Definition lex_start (c : N) : option (lstate * list token) :=
  if is_json_ws c then Some (LIdle, [])
  else if N.eqb c 91 then Some (LIdle, [TLBrack])
  else if N.eqb c 93 then Some (LIdle, [TRBrack])
  else if N.eqb c 123 then Some (LIdle, [TLBrace])
  else if N.eqb c 125 then Some (LIdle, [TRBrace])
  else if N.eqb c 44 then Some (LIdle, [TComma])
  else if N.eqb c 58 then Some (LIdle, [TColon])
  else if N.eqb c 34 then Some (LStr [] None, [])
  else if N.eqb c 45 then Some (LMinus, [])
  else if N.eqb c 48 then Some (LNum NZero (num0 false 0), [])
  else if is_digit c then Some (LNum NInt (num0 false (digit_val c)), [])
  else if N.eqb c 110 then Some (LLit (lit "ull") PyNone, [])
  else if N.eqb c 116 then Some (LLit (lit "rue") (PyBool true), [])
  else if N.eqb c 102 then Some (LLit (lit "alse") (PyBool false), [])
  else if N.eqb c 78 then Some (LLit (lit "aN") (PyFloat S754_nan), [])
  else if N.eqb c 73 then
    Some (LLit (lit "nfinity") (PyFloat (S754_infinity false)), [])
  else None.

(** A number ends at [c]: its token, then [c] as the start of the next. *)
Definition num_end (ph : numphase) (a : numacc) (c : N)
  : option (lstate * list token) :=
  match num_value ph a, lex_start c with
  | Some v, Some (st, toks) => Some (st, TAtom v :: toks)
  | _, _ => None
  end.

Definition add_digit (a : numacc) (c : N) (frac : bool) : numacc :=
  mkNum (n_neg a) (10 * n_mant a + digit_val c)
        (if frac then n_fdig a + 1 else n_fdig a) (n_eneg a) (n_exp a).

Definition add_exp_digit (a : numacc) (c : N) : numacc :=
  mkNum (n_neg a) (n_mant a) (n_fdig a) (n_eneg a) (10 * n_exp a + digit_val c).

Definition set_exp_sign (a : numacc) (neg : bool) : numacc :=
  mkNum (n_neg a) (n_mant a) (n_fdig a) neg (n_exp a).

Definition is_e (c : N) : bool := N.eqb c 101 || N.eqb c 69.

Definition num_step (ph : numphase) (a : numacc) (c : N)
  : option (lstate * list token) :=
  match ph with
  | NZero =>
      if N.eqb c 46 then Some (LNum NDot a, [])
      else if is_e c then Some (LNum NExp a, [])
      else if is_digit c then None
      else num_end ph a c
  | NInt =>
      if is_digit c then Some (LNum NInt (add_digit a c false), [])
      else if N.eqb c 46 then Some (LNum NDot a, [])
      else if is_e c then Some (LNum NExp a, [])
      else num_end ph a c
  | NDot =>
      if is_digit c then Some (LNum NFrac (add_digit a c true), []) else None
  | NFrac =>
      if is_digit c then Some (LNum NFrac (add_digit a c true), [])
      else if is_e c then Some (LNum NExp a, [])
      else num_end ph a c
  | NExp =>
      if N.eqb c 43 then Some (LNum NExpSign a, [])
      else if N.eqb c 45 then Some (LNum NExpSign (set_exp_sign a true), [])
      else if is_digit c then Some (LNum NExpDig (add_exp_digit a c), [])
      else None
  | NExpSign =>
      if is_digit c then Some (LNum NExpDig (add_exp_digit a c), []) else None
  | NExpDig =>
      if is_digit c then Some (LNum NExpDig (add_exp_digit a c), [])
      else num_end ph a c
  end.

(** A complete [\uXXXX] with value [u]. *)
Definition uni_end (acc : pystr) (hi : option N) (u : N) : lstate :=
  match hi with
  | Some h =>
      if is_low_surrogate u then LStr (acc ++ [join_surrogates h u]) None
      else if is_high_surrogate u then LStr (acc ++ [h]) (Some u)
      else LStr (acc ++ [h; u]) None
  | None =>
      if is_high_surrogate u then LStr acc (Some u)
      else LStr (acc ++ [u]) None
  end.

Definition lstep (st : lstate) (c : N) : option (lstate * list token) :=
  match st with
  | LIdle => lex_start c
  | LLit [] _ => None
  | LLit (x :: rest) v =>
      if N.eqb c x then
        match rest with
        | [] => Some (LIdle, [TAtom v])
        | _ => Some (LLit rest v, [])
        end
      else None
  | LMinus =>
      if N.eqb c 48 then Some (LNum NZero (num0 true 0), [])
      else if is_digit c then Some (LNum NInt (num0 true (digit_val c)), [])
      else if N.eqb c 73 then
        Some (LLit (lit "nfinity") (PyFloat (S754_infinity true)), [])
      else None
  | LNum ph a => num_step ph a c
  | LStr acc hi =>
      if N.eqb c 34 then Some (LIdle, [TStr (flush acc hi)])
      else if N.eqb c 92 then Some (LEsc acc hi, [])
      else if N.leb c 31 then None
      else Some (LStr (flush acc hi ++ [c]) None, [])
  | LEsc acc hi =>
      if N.eqb c 117 then Some (LUni acc hi 4 0, [])
      else match escape_char c with
           | Some x => Some (LStr (flush acc hi ++ [x]) None, [])
           | None => None
           end
  | LUni acc hi k u =>
      match hex_val c with
      | Some d =>
          let u' := (16 * u + d)%N in
          match k with
          | S (S k') => Some (LUni acc hi (S k') u', [])
          | _ => Some (uni_end acc hi u', [])
          end
      | None => None
      end
  end.

(** The end of the text. *)
Definition lfinish (st : lstate) : option (list token) :=
  match st with
  | LIdle => Some []
  | LNum ph a =>
      match num_value ph a with
      | Some v => Some [TAtom v]
      | None => None
      end
  | _ => None
  end.

Fixpoint lex_run (st : lstate) (s : pystr) : option (list token) :=
  match s with
  | [] => lfinish st
  | c :: rest =>
      match lstep st c with
      | Some (st', toks) =>
          match lex_run st' rest with
          | Some more => Some (toks ++ more)
          | None => None
          end
      | None => None
      end
  end.

Definition tokenize (s : pystr) : option (list token) := lex_run LIdle s.

(** *** The parser *)

(** The containers that are open around the current position. *)
Inductive frame :=
  | FArr (items : list pyvalue)
  | FObj (pairs : list (pystr * pyvalue)) (key : pystr).

Inductive pstate :=
  | SValue (stk : list frame)           (* a value must follow *)
  | SArrOpen (stk : list frame)         (* after [: a value or ] *)
  | SArrNext (items : list pyvalue) (stk : list frame)   (* , or ] *)
  | SObjOpen (stk : list frame)         (* after {: a key or } *)
  | SObjKey (pairs : list (pystr * pyvalue)) (stk : list frame)
  | SObjColon (pairs : list (pystr * pyvalue)) (key : pystr) (stk : list frame)
  | SObjNext (pairs : list (pystr * pyvalue)) (stk : list frame)  (* , or } *)
  | SEnd (v : pyvalue).                 (* the document is complete *)

(** A value is complete: it goes into the innermost open container. *)
Definition reduce (v : pyvalue) (stk : list frame) : pstate :=
  match stk with
  | [] => SEnd v
  | FArr items :: stk' => SArrNext (items ++ [v]) stk'
  | FObj pairs key :: stk' => SObjNext (dict_set pairs key v) stk'
  end.

Definition value_start (t : token) (stk : list frame) : option pstate :=
  match t with
  | TAtom v => Some (reduce v stk)
  | TStr s => Some (reduce (PyStr s) stk)
  | TLBrack => Some (SArrOpen stk)
  | TLBrace => Some (SObjOpen stk)
  | _ => None
  end.

Definition pstep (st : pstate) (t : token) : option pstate :=
  match st, t with
  | SValue stk, _ => value_start t stk
  | SArrOpen stk, TRBrack => Some (reduce (PyList []) stk)
  | SArrOpen stk, _ => value_start t (FArr [] :: stk)
  | SArrNext items stk, TComma => Some (SValue (FArr items :: stk))
  | SArrNext items stk, TRBrack => Some (reduce (PyList items) stk)
  | SObjOpen stk, TRBrace => Some (reduce (PyDict []) stk)
  | SObjOpen stk, TStr k => Some (SObjColon [] k stk)
  | SObjKey pairs stk, TStr k => Some (SObjColon pairs k stk)
  | SObjColon pairs k stk, TColon => Some (SValue (FObj pairs k :: stk))
  | SObjNext pairs stk, TComma => Some (SObjKey pairs stk)
  | SObjNext pairs stk, TRBrace => Some (reduce (PyDict pairs) stk)
  | _, _ => None
  end.

Fixpoint parse_run (st : pstate) (ts : list token) : option pyvalue :=
  match ts with
  | [] => match st with SEnd v => Some v | _ => None end
  | t :: rest =>
      match pstep st t with
      | Some st' => parse_run st' rest
      | None => None
      end
  end.

Definition loads (s : pystr) : res pyvalue :=
  match tokenize s with
  | Some ts =>
      match parse_run (SValue []) ts with
      | Some v => Ok v
      | None => Raise JSONDecodeError
      end
  | None => Raise JSONDecodeError
  end.

End Json.

(** ** Graph nodes

    [networkx] keeps nodes as dictionary keys, so two values are the
    same node when Python finds them equal and hashes them alike:
    [True], [1] and [1.0] are one node. A node is modelled by the class
    of its value under that equality. *)

Inductive node :=
  | NodeNone
  | NodeInt (z : Z)                                  (* bool, int, integral float *)
  | NodeFrac (neg : bool) (m : positive) (e : Z)     (* other finite floats *)
  | NodeInf (neg : bool)
  | NodeNaN
  | NodeStr (s : pystr).

#[global] Instance node_eq_dec : EqDecision node.
Proof. solve_decision. Defined.

Definition node_code (n : node)
  : unit + Z + (bool * positive * Z) + bool + unit + list N :=
  match n with
  | NodeNone => inl (inl (inl (inl (inl tt))))
  | NodeInt z => inl (inl (inl (inl (inr z))))
  | NodeFrac s m e => inl (inl (inl (inr (s, m, e))))
  | NodeInf s => inl (inl (inr s))
  | NodeNaN => inl (inr tt)
  | NodeStr s => inr s
  end.

Definition node_decode
  (c : unit + Z + (bool * positive * Z) + bool + unit + list N) : node :=
  match c with
  | inl (inl (inl (inl (inl _)))) => NodeNone
  | inl (inl (inl (inl (inr z)))) => NodeInt z
  | inl (inl (inl (inr (s, m, e)))) => NodeFrac s m e
  | inl (inl (inr s)) => NodeInf s
  | inl (inr _) => NodeNaN
  | inr s => NodeStr s
  end.

#[global] Instance node_countable : Countable node.
Proof.
  apply (inj_countable' node_code node_decode).
  intros []; reflexivity.
Defined.

(** A finite float [m * 2^e] with the factors of two moved out of [m]. *)
Fixpoint odd_mantissa (m : positive) (e : Z) : positive * Z :=
  match m with
  | xO p => odd_mantissa p (e + 1)
  | _ => (m, e)
  end.

Definition float_node (f : spec_float) : node :=
  match f with
  | S754_zero _ => NodeInt 0
  | S754_infinity s => NodeInf s
  | S754_nan => NodeNaN
  | S754_finite s m e =>
      let '(m', e') := odd_mantissa m e in
      if Z.leb 0 e' then
        NodeInt (if s then - (Zpos m' * 2 ^ e') else Zpos m' * 2 ^ e')
      else NodeFrac s m' e'
  end.

(** Hashing a value: lists and dicts are unhashable. *)
Definition py_hash (v : pyvalue) : res node :=
  match v with
  | PyNone => Ok NodeNone
  | PyBool b => Ok (NodeInt (if b then 1 else 0))
  | PyInt z => Ok (NodeInt z)
  | PyFloat f => Ok (float_node f)
  | PyStr s => Ok (NodeStr s)
  | PyList _ | PyDict _ => Raise TypeError
  end.

(** ** [networkx.DiGraph]

    The nodes, and for every ordered pair of nodes that is an edge the
    attribute dictionary of that edge. *)

Record DiGraph := mkGraph {
  G_nodes : gset node;
  G_adj : gmap (node * node) (gmap string pyvalue)
}.

Definition empty_graph : DiGraph := mkGraph ∅ ∅.

(** A value used as an end point of an edge: it is hashed, and [None]
    is refused. *)
Definition as_node (x : pyvalue) : res node :=
  match py_hash x with
  | Ok NodeNone => Raise ValueError
  | r => r
  end.

(** [G.add_edge(u, v, **attr)]: both nodes are added when new, and the
    attributes update those the edge already has. *)
Definition add_edge_nodes (G : DiGraph) (u v : node) (attr : gmap string pyvalue)
  : DiGraph :=
  mkGraph ({[u]} ∪ ({[v]} ∪ G_nodes G))
          (<[(u, v) := attr ∪ default ∅ (G_adj G !! (u, v))]> (G_adj G)).

Definition add_edge (G : DiGraph) (u v : pyvalue) (attr : gmap string pyvalue)
  : res DiGraph :=
  match as_node u with
  | Raise e => Raise e
  | Ok nu =>
      match as_node v with
      | Raise e => Raise e
      | Ok nv => Ok (add_edge_nodes G nu nv attr)
      end
  end.

(** [nx.get_edge_attributes(G, name)]. *)
Definition get_edge_attributes (G : DiGraph) (name : string)
  : gmap (node * node) pyvalue :=
  omap (fun d : gmap string pyvalue => d !! name) (G_adj G).

(** ** The graph of [build_and_save_graph]

    The loop over [triples], starting from [nx.DiGraph()]. *)

Definition all_truthy (subj pred obj : pyvalue) : bool :=
  truthy subj && truthy pred && truthy obj.

Fixpoint graph_loop (G : DiGraph) (triples : list pyvalue) : res DiGraph :=
  match triples with
  | [] => Ok G
  | triple :: rest =>
      match py_get triple (lit "subject") with
      | Raise e => Raise e
      | Ok subj =>
      match py_get triple (lit "predicate") with
      | Raise e => Raise e
      | Ok pred =>
      match py_get triple (lit "object") with
      | Raise e => Raise e
      | Ok obj =>
          if all_truthy subj pred obj then
            match add_edge G subj obj {["label" := pred]} with
            | Raise e => Raise e
            | Ok G' => graph_loop G' rest
            end
          else graph_loop G rest
      end end end
  end.

Definition build_graph (triples : pyvalue) : res DiGraph :=
  match py_iter triples with
  | Raise e => Raise e
  | Ok items => graph_loop empty_graph items
  end.

(** What the figure shows: the nodes with their names, the edges, the
    edge labels and the title. The positions come from an unseeded
    random layout and are left out. *)
Record figure := mkFigure {
  fig_nodes : gset node;
  fig_edges : gset (node * node);
  fig_edge_labels : gmap (node * node) pyvalue;
  fig_title : pystr
}.

Definition draw (G : DiGraph) : figure :=
  mkFigure (G_nodes G) (dom (G_adj G)) (get_edge_attributes G "label")
           (lit "Knowledge Representation Graph").

(** ** The world the request handler runs in *)

(** A file on disk: an uploaded document, or a saved figure. *)
Inductive file :=
  | FileUpload (data : list N)
  | FileImage (fig : figure).

Record world := mkWorld {
  fs : gmap (list N) file;      (* the files, by path *)
  stdout : list (list N);       (* the lines printed so far *)
  uuid_count : nat;             (* how many uuids were drawn *)
  prompts : list (list N)       (* the prompts sent to the model so far *)
}.

(** What lies outside the program: where it is installed, the random
    uuids, the PDF reader and the language model. *)
Record env := mkEnv {
  BASE_DIR : pystr;
  uuid4_hex : nat -> pystr;                  (* the n-th [uuid.uuid4().hex] *)
  fitz_pages : list N -> option (list pystr);
      (* the text of each page of a document, [None] when it is unreadable *)
  model_reply : nat -> pystr -> res pystr
      (* [response.text] of the n-th call, for a given prompt *)
}.

(** Computations that read and change the world and may raise. *)
Definition M (A : Type) : Type := world -> res A * world.

Definition ret {A} (a : A) : M A := fun w => (Ok a, w).
Definition raise {A} (e : exn) : M A := fun w => (Raise e, w).
Definition bind {A B} (m : M A) (k : A -> M B) : M B :=
  fun w => match m w with
           | (Ok a, w') => k a w'
           | (Raise e, w') => (Raise e, w')
           end.
Definition lift {A} (r : res A) : M A := fun w => (r, w).

Notation "'let*' x := m 'in' k" := (bind m (fun x => k))
  (at level 10, x name, m at level 100, k at level 200).
Notation "m ;; k" := (bind m (fun _ => k))
  (at level 100, k at level 200, right associativity).

Definition print (line : pystr) : M unit :=
  fun w => (Ok tt, mkWorld (fs w) (stdout w ++ [line]) (uuid_count w) (prompts w)).

Definition write_file (path : pystr) (f : file) : M unit :=
  fun w => (Ok tt, mkWorld (<[path := f]> (fs w)) (stdout w) (uuid_count w) (prompts w)).

Definition uuid4 (E : env) : M pystr :=
  fun w => (Ok (uuid4_hex E (uuid_count w)),
            mkWorld (fs w) (stdout w) (S (uuid_count w)) (prompts w)).

Definition generate_content (E : env) (prompt : pystr) : M pystr :=
  fun w => (model_reply E (length (prompts w)) prompt,
            mkWorld (fs w) (stdout w) (uuid_count w) (prompts w ++ [prompt])).

(** [fitz.open(path)]: the pages of the document stored at [path]. *)
Definition fitz_open (E : env) (path : pystr) : M (list pystr) :=
  fun w => match fs w !! path with
           | Some (FileUpload data) =>
               match fitz_pages E data with
               | Some pages => (Ok pages, w)
               | None => (Raise FileDataError, w)
               end
           | Some (FileImage _) => (Raise FileDataError, w)
           | None => (Raise FileNotFoundError, w)
           end.

(** [os.path.join(a, b)] on POSIX. *)
Definition path_join (a b : pystr) : pystr :=
  if startswith [47%N] b then b
  else match last a with
       | None => b
       | Some c => if N.eqb c 47 then a ++ b else a ++ 47%N :: b
       end.

Definition UPLOAD_FOLDER (E : env) : pystr := path_join (BASE_DIR E) (lit "uploads").
Definition GENERATED_FOLDER (E : env) : pystr := path_join (BASE_DIR E) (lit "generated").

(** ** The four processing functions *)

Definition extract_text_from_pdf (E : env) (pdf_path : pystr) : M pystr :=
  let* doc := fitz_open E pdf_path in
  ret (str_join [] doc).

(** The f-string of the prompt. *)
Definition prompt_of (text : pystr) : pystr :=
  NL :: lit "Make the text short with simplified sentences such that triples can be extracted easily and Respond only with a valid JSON array of triples. Do not include any explanations or text before or after and Extract knowledge triples from this text:"
  ++ NL :: lit "Format example: ["
  ++ NL :: jlit "  {'subject': '...', 'predicate': '...', 'object': '...'}"
  ++ NL :: lit "]"
  ++ NL :: lit "Text:"
  ++ NL :: jlit "'''" ++ text ++ jlit "'''" ++ [NL].

Definition parse_failure_line : pystr :=
  10060%N :: lit " Failed to parse JSON from Gemini response:".

Definition extract_knowledge_triples (E : env) (text : pystr) : M pyvalue :=
  let* response_text := generate_content E (prompt_of text) in
  let raw_text := raw_of response_text in
  let cleaned_text := cleaned_of raw_text in
  match Json.loads cleaned_text with
  | Ok triples => ret triples
  | Raise JSONDecodeError =>
      print parse_failure_line ;;
      print raw_text ;;
      ret (PyList [])
  | Raise e => raise e
  end.

Definition build_and_save_graph (triples : pyvalue) (image_path : pystr) : M unit :=
  let* G := lift (build_graph triples) in
  write_file image_path (FileImage (draw G)).

(** ** The upload handler *)

(** An uploaded file as Flask hands it over; it is truthy when it has a
    file name. *)
Record FileStorage := mkFile {
  filename : pystr;
  stream : list N
}.

Record request := mkRequest {
  files : gmap (list N) FileStorage
}.

(** A JSON response with its status code. *)
Record response := mkResponse {
  status : Z;
  json : pyvalue
}.

Definition jsonify (key value : pystr) : pyvalue := PyDict [(key, PyStr value)].

Definition has_file (o : option FileStorage) : bool :=
  match o with
  | Some f => negb (Nat.eqb (length (filename f)) 0)
  | None => false
  end.

Definition upload_pdf (E : env) (req : request) : M response :=
  let pdf_file := files req !! lit "pdf" in
  if negb (has_file pdf_file) then
    ret (mkResponse 400 (jsonify (lit "error") (lit "No PDF file uploaded")))
  else
    let* hex := uuid4 E in
    let pdf_filename := hex ++ lit ".pdf" in
    let pdf_path := path_join (UPLOAD_FOLDER E) pdf_filename in
    write_file pdf_path (FileUpload (default [] (stream <$> pdf_file))) ;;
    let* text := extract_text_from_pdf E pdf_path in
    let* triples := extract_knowledge_triples E text in
    if negb (truthy triples) then
      ret (mkResponse 500 (jsonify (lit "error") (lit "No triples extracted from PDF")))
    else
      let* hex' := uuid4 E in
      let image_filename := hex' ++ lit ".png" in
      let image_path := path_join (GENERATED_FOLDER E) image_filename in
      build_and_save_graph triples image_path ;;
      ret (mkResponse 200 (jsonify (lit "image_url") (lit "/generated/" ++ image_filename))).

(** ** Notions the statements use *)


Definition is_dict (v : pyvalue) : bool :=
  match v with
  | PyDict _ => true
  | _ => false
  end.

(** A list of objects, the shape the prompt asks the model for. *)
Definition list_of_objects (v : pyvalue) : bool :=
  match v with
  | PyList l => forallb is_dict l
  | _ => false
  end.

(** The world after [upload_pdf] has drawn the name of the upload and
    saved it, and the path it saved it at. *)
Definition pdf_path_of (E : env) (w : world) : pystr :=
  path_join (UPLOAD_FOLDER E) (uuid4_hex E (uuid_count w) ++ lit ".pdf").

Definition after_save (E : env) (f : FileStorage) (w : world) : world :=
  mkWorld (<[pdf_path_of E w := FileUpload (stream f)]> (fs w))
          (stdout w) (S (uuid_count w)) (prompts w).

Definition error_response (code : Z) (message : string) : response :=
  mkResponse code (PyDict [(lit "error", PyStr (lit message))]).

(** An environment to run the pipeline in: the pages of a document are
    the parts of its content between form feeds, and the model always
    answers [reply]. And a world with nothing in it. *)
Fixpoint split_pages (data : list N) : list pystr :=
  match data with
  | [] => [[]]
  | c :: rest =>
      if N.eqb c 12 then [] :: split_pages rest
      else match split_pages rest with
           | page :: pages => (c :: page) :: pages
           | [] => [[c]]
           end
  end.

Definition env_replying (reply : pystr) : env :=
  mkEnv (lit "/app") (fun n => repeat 48%N (S n))
        (fun data => Some (split_pages data))
        (fun _ _ => Ok reply).

Definition world0 : world := mkWorld ∅ [] 0 [].

Definition request_with (name : string) (data : pystr) : request :=
  mkRequest {[ lit "pdf" := mkFile (lit name) data ]}.

(** *** Triples *)

#[global] Instance spec_float_eq_dec : EqDecision spec_float.
Proof. solve_decision. Defined.

Definition pyvalue_eq_dec : forall a b : pyvalue, {a = b} + {a <> b}.
Proof.
  fix IH 1.
  intros a b. destruct a, b; try (right; discriminate).
  - left; reflexivity.
  - destruct (decide (b0 = b)); [left|right]; congruence.
  - destruct (decide (z = z0)); [left|right]; congruence.
  - destruct (decide (f = f0)); [left|right]; congruence.
  - destruct (decide (s = s0)); [left|right]; congruence.
  - destruct (List.list_eq_dec IH l l0); [left|right]; congruence.
  - assert (Hp : forall x y : list N * pyvalue, {x = y} + {x <> y}).
    { intros [k1 v1] [k2 v2].
      destruct (decide (k1 = k2)); [|right; congruence].
      destruct (IH v1 v2); [left|right]; congruence. }
    destruct (List.list_eq_dec Hp d d0); [left|right]; congruence.
Defined.

#[global] Instance pyvalue_eq_decision : EqDecision pyvalue := pyvalue_eq_dec.

(** What [triple.get(k)] gives on an object. *)
Definition field (t : pyvalue) (k : string) : pyvalue :=
  match t with
  | PyDict d => default PyNone (dict_get d (lit k))
  | _ => PyNone
  end.

(** All three fields are present and non-empty. *)
Definition populated (t : pyvalue) : bool :=
  all_truthy (field t "subject") (field t "predicate") (field t "object").

Definition scalar (v : pyvalue) : bool :=
  match v with
  | PyList _ | PyDict _ => false
  | _ => true
  end.

(** A triple: an object whose subject and object, when present, are
    not containers. The triples of the specification, with their three
    optional string fields, are of this kind. *)
Definition is_triple (t : pyvalue) : bool :=
  is_dict t && scalar (field t "subject") && scalar (field t "object").

(** A triple that lacks a field or has an empty one. *)
Definition unusable (t : pyvalue) : bool :=
  is_dict t && negb (populated t).

(** [t] is a fully populated triple with predicate [p], subject node
    [u] and object node [v]. *)
Definition links (t : pyvalue) (u : node) (p : pyvalue) (v : node) : Prop :=
  populated t = true
  /\ as_node (field t "subject") = Ok u
  /\ field t "predicate" = p
  /\ as_node (field t "object") = Ok v.

(** The edge the loop body adds for one triple, if it adds one. *)
Definition edge_of (t : pyvalue) : option (node * node * pyvalue) :=
  if populated t then
    match as_node (field t "subject"), as_node (field t "object") with
    | Ok u, Ok v => Some (u, v, field t "predicate")
    | _, _ => None
    end
  else None.

Definition add_labelled (G : DiGraph) (e : node * node * pyvalue) : DiGraph :=
  add_edge_nodes G e.1.1 e.1.2 {["label" := e.2]}.

(** The labels, in order, of the edges of a list that join [k.1] to [k.2]. *)
Definition labels_for (k : node * node) (es : list (node * node * pyvalue))
  : list pyvalue :=
  snd <$> filter (fun e => e.1 = k) es.

(** How many edges of a graph join [u] to [v]. *)
Definition edge_count (G : DiGraph) (u v : node) : nat :=
  length (filter (fun e => e.1 = (u, v)) (map_to_list (G_adj G))).

(** The triple the model is asked for, with string fields. *)
Definition triple (subj pred obj : string) : pyvalue :=
  PyDict [(lit "subject", PyStr (lit subj));
          (lit "predicate", PyStr (lit pred));
          (lit "object", PyStr (lit obj))].

(** *** The image *)

Definition image_path_of (E : env) (w : world) : pystr :=
  path_join (GENERATED_FOLDER E) (uuid4_hex E (uuid_count w) ++ lit ".png").

Definition empty_figure : figure :=
  mkFigure ∅ ∅ ∅ (lit "Knowledge Representation Graph").

(** *** Fenced replies and tokenizer states *)

(** The reply [A] wrapped in a markdown code fence. *)
Definition fenced (A : pystr) : pystr :=
  lit "```json" ++ NL :: A ++ NL :: lit "```".

Definition is_alpha (c : N) : bool :=
  (N.leb 65 c && N.leb c 90) || (N.leb 97 c && N.leb c 122).

(** The states the tokenizer reaches: inside a literal only letters
    are still expected. *)
Definition wf_state (st : Json.lstate) : Prop :=
  match st with
  | Json.LLit rest _ => forallb is_alpha rest = true
  | _ => True
  end.

Definition in_string (st : Json.lstate) : Prop :=
  match st with
  | Json.LStr _ _ => True
  | _ => False
  end.

(** ** Serving a generated image

    [serve_static] hands its argument to Flask's [send_from_directory],
    which joins it to the folder with [werkzeug.security.safe_join] and
    serves the file found there; every refusal is the 404 answer. The
    paths are POSIX paths. *)

Definition SLASH : N := 47.
Definition dot : pystr := lit ".".
Definition dotdot : pystr := lit "..".

(** [s.split(sep)] for a one-character separator. *)
Fixpoint split_on (sep : N) (s : pystr) : list pystr :=
  match s with
  | [] => [[]]
  | c :: rest =>
      if N.eqb c sep then [] :: split_on sep rest
      else match split_on sep rest with
           | part :: parts => (c :: part) :: parts
           | [] => [[c]]
           end
  end.

(** [s.endswith(p)]. *)
Definition endswith (p s : pystr) : bool := startswith (rev p) (rev s).

(** One round of the loop of [posixpath.normpath] over the components;
    [rooted] tells whether the path began with a slash. *)
Definition norm_step (rooted : bool) (new_comps : list pystr) (comp : pystr)
  : list pystr :=
  if bool_decide (comp = []) || bool_decide (comp = dot) then new_comps
  else if negb (bool_decide (comp = dotdot))
          || (negb rooted && bool_decide (new_comps = []))
          || (negb (bool_decide (new_comps = []))
              && bool_decide (last new_comps = Some dotdot))
  then new_comps ++ [comp]
  else removelast new_comps.

(** The number of leading slashes [normpath] keeps: two when the path
    begins with exactly two, otherwise at most one. *)
Definition initial_slashes (path : pystr) : nat :=
  if startswith [SLASH] path then
    if startswith [SLASH; SLASH] path && negb (startswith [SLASH; SLASH; SLASH] path)
    then 2%nat else 1%nat
  else 0%nat.

Definition normpath (path : pystr) : pystr :=
  match path with
  | [] => dot
  | _ =>
      let n := initial_slashes path in
      let comps := foldl (norm_step (negb (Nat.eqb n 0))) [] (split_on SLASH path) in
      match repeat SLASH n ++ str_join [SLASH] comps with
      | [] => dot
      | p => p
      end
  end.

(** [safe_join(directory, filename)]: [None] when the normalised file
    name is absolute or leads out of the directory. *)
Definition safe_join (directory filename : pystr) : option pystr :=
  let directory := match directory with [] => dot | _ => directory end in
  let filename := match filename with [] => [] | _ => normpath filename end in
  if startswith [SLASH] filename
     || bool_decide (filename = dotdot)
     || startswith (lit "../") filename
  then None
  else Some (path_join directory filename).

(** [os.path.isfile(p)], giving the file: a path that ends in a slash
    or in a [.] component never names a regular file. *)
Definition os_isfile (w : world) (p : pystr) : option file :=
  if endswith [SLASH] p || endswith (lit "/.") p then None else fs w !! p.

(** The answer to a request for a file: the file at a path, or 404. *)
Inductive served :=
  | SendFile (path : pystr) (f : file)
  | NotFound.

(** [send_from_directory(directory, path)] of an application whose
    root path is [root]. *)
Definition send_from_directory (root directory path : pystr) (w : world) : served :=
  match safe_join directory path with
  | None => NotFound
  | Some joined =>
      let path_str := path_join root joined in
      match os_isfile w path_str with
      | Some f => SendFile path_str f
      | None => NotFound
      end
  end.

Definition serve_static (E : env) (filename : pystr) (w : world) : served :=
  send_from_directory (BASE_DIR E) (GENERATED_FOLDER E) filename w.

(** The names [uuid.uuid4().hex] gives: hexadecimal digits. *)
Definition is_hex_name (s : pystr) : bool :=
  negb (Nat.eqb (length s) 0)
  && forallb (fun c => match Json.hex_val c with Some _ => true | None => false end) s.

(** A path component that is not [..] and holds no slash. *)
Definition clean_comp (c : pystr) : Prop := c <> dotdot /\ ~ In SLASH c.

(** ** Well-formed graphs *)

(** A node that stands for a truthy value: not [None], not the empty
    string, not zero. *)
Definition node_ok (n : node) : Prop :=
  n <> NodeNone /\ n <> NodeStr [] /\ n <> NodeInt 0.

(** What the graph builder keeps true: every edge joins two nodes and
    carries exactly a truthy label, and every node is the end of an
    edge and stands for a truthy value. *)
Definition graph_ok (G : DiGraph) : Prop :=
  (forall u v d, G_adj G !! (u, v) = Some d ->
     u ∈ G_nodes G /\ v ∈ G_nodes G
     /\ exists p, d = {["label" := p]} /\ truthy p = true)
  /\ (forall n, n ∈ G_nodes G ->
        node_ok n
        /\ exists m, is_Some (G_adj G !! (n, m)) \/ is_Some (G_adj G !! (m, n))).

(** * Properties *)

(** ** The model at work *)

Example cleaned_fenced :
  cleaned_of (raw_of (lit "```json" ++ NL :: jlit "[{'a': 1}]" ++ NL :: lit "```" ++ [NL]))
  = jlit "[{'a': 1}]".
Proof. reflexivity. Qed.

Example cleaned_inner_ticks :
  cleaned_of (lit "a```" ++ NL :: lit "```b``` ") = lit "a" ++ NL :: lit "b```".
Proof. reflexivity. Qed.

Example loads_triples :
  Json.loads (jlit " [ {'subject': 'Alice', 'predicate': 'knows', 'object': 'Bob'} ] ")
  = Ok (PyList [triple "Alice" "knows" "Bob"]).
Proof. reflexivity. Qed.

Example loads_misc :
  Json.loads (jlit "{'a': [1, -2, 0.5, 1e2, true, null, 'x\n'], 'a': {}}")
  = Ok (PyDict [(lit "a", PyDict [])]).
Proof. reflexivity. Qed.

Example loads_numbers :
  Json.loads (jlit "[0.1, 1e400, -0.0, 5e-324, 2e-324, 12, -0, 1E+2]")
  = Ok (PyList [PyFloat (S754_finite false 7205759403792794 (-56));
                PyFloat (S754_infinity false);
                PyFloat (S754_zero true);
                PyFloat (S754_finite false 1 (-1074));
                PyFloat (S754_zero false);
                PyInt 12; PyInt 0;
                PyFloat (S754_finite false 7036874417766400 (-46))]).
Proof. vm_compute. reflexivity. Qed.

Example loads_rejects :
  map Json.loads [lit "not json"; jlit "[1,]"; jlit "01"; jlit "'a"; jlit "[1 2]";
                  lit "1."; lit ""; jlit "{'a' 1}"; jlit "{1: 2}"; lit "nul";
                  jlit "'\x'"; lit "[1]]"; lit "-"; lit ".5"]
  = repeat (Raise JSONDecodeError) 14.
Proof. reflexivity. Qed.

Example loads_surrogates :
  Json.loads (jlit "'\ud83d\ude00 \ud83d \ud83dx\ud83d\u0041'")
  = Ok (PyStr [128512; 32; 55357; 32; 55357; 120; 55357; 65]%N).
Proof. reflexivity. Qed.

Example same_node_for_equal_numbers :
  map py_hash [PyBool true; PyInt 1; PyFloat (S754_finite false 4503599627370496 (-52))]
  = repeat (Ok (NodeInt 1)) 3.
Proof. reflexivity. Qed.

Example remove_dups_keeps_last :
  remove_dups [triple "A" "knows" "B"; triple "A" "likes" "B"; triple "A" "knows" "B"]
  = [triple "A" "likes" "B"; triple "A" "knows" "B"].
Proof. reflexivity. Qed.

Example upload_alice_knows_bob :
  upload_pdf (env_replying (jlit "[{'subject': 'Alice', 'predicate': 'knows', 'object': 'Bob'}]"))
             (request_with "paper.pdf" (lit "Alice knows Bob.")) world0
  = (Ok (mkResponse 200 (PyDict [(lit "image_url", PyStr (lit "/generated/00.png"))])),
     mkWorld {[ lit "/app/uploads/0.pdf" := FileUpload (lit "Alice knows Bob.");
                lit "/app/generated/00.png" :=
                  FileImage (mkFigure {[ NodeStr (lit "Alice"); NodeStr (lit "Bob") ]}
                                      {[ (NodeStr (lit "Alice"), NodeStr (lit "Bob")) ]}
                                      {[ (NodeStr (lit "Alice"), NodeStr (lit "Bob"))
                                           := PyStr (lit "knows") ]}
                                      (lit "Knowledge Representation Graph")) ]}
             [] 2 [prompt_of (lit "Alice knows Bob.")]).
Proof. vm_compute. reflexivity. Qed.

(** A list of numbers is truthy, so the handler goes on to build the
    graph, where [.get] fails on the first element. *)
Example upload_list_of_numbers :
  fst (upload_pdf (env_replying (lit "[1, 2]"))
                  (request_with "paper.pdf" (lit "Alice knows Bob.")) world0)
  = Raise AttributeError.
Proof. reflexivity. Qed.

(** ** The text extractor *)

Lemma str_join_empty (parts : list pystr) : str_join [] parts = concat parts.
Proof.
  induction parts as [|p [|q rest] IH]; simpl in *.
  - reflexivity.
  - now rewrite app_nil_r.
  - now rewrite IH.
Qed.

(** C6. For a readable document whose pages yield the texts [pages] in
    page order, [extract_text_from_pdf] returns their concatenation,
    with nothing put in between, and leaves the world as it was; for a
    single page it returns the text of that page. *)
Theorem extract_text_is_concatenation (E : env) (path data : pystr)
    (pages : list pystr) (w : world) :
  fs w !! path = Some (FileUpload data) ->
  fitz_pages E data = Some pages ->
  extract_text_from_pdf E path w = (Ok (concat pages), w)
  /\ (forall t, pages = [t] -> extract_text_from_pdf E path w = (Ok t, w)).
Proof.
  intros Hfile Hpages.
  assert (Hrun : extract_text_from_pdf E path w = (Ok (concat pages), w)).
  { unfold extract_text_from_pdf, bind, fitz_open, ret.
    rewrite Hfile, Hpages. now rewrite str_join_empty. }
  split; [exact Hrun|].
  intros t ->. rewrite Hrun. simpl. now rewrite app_nil_r.
Qed.

Lemma extract_text_is_concatenation_witness :
  let w := mkWorld {[ lit "/app/uploads/0.pdf" :=
                        FileUpload (lit "Alice knows Bob." ++ 12%N :: lit "Bob likes tea.") ]}
                   [] 1 [] in
  extract_text_from_pdf (env_replying []) (lit "/app/uploads/0.pdf") w
  = (Ok (lit "Alice knows Bob.Bob likes tea."), w).
Proof.
  intros w.
  refine (proj1 (extract_text_is_concatenation (env_replying [])
                   (lit "/app/uploads/0.pdf")
                   (lit "Alice knows Bob." ++ 12%N :: lit "Bob likes tea.")
                   [lit "Alice knows Bob."; lit "Bob likes tea."] w _ _)).
  - reflexivity.
  - reflexivity.
Defined.

(** ** The triple extractor *)



(** What [extract_knowledge_triples] does once the model has replied. *)
Lemma extract_unfold (E : env) (text : pystr) (w : world) (reply : pystr) :
  model_reply E (length (prompts w)) (prompt_of text) = Ok reply ->
  extract_knowledge_triples E text w =
    match Json.loads (cleaned_of (raw_of reply)) with
    | Ok triples => ret triples
    | Raise JSONDecodeError =>
        print parse_failure_line ;; print (raw_of reply) ;; ret (PyList [])
    | Raise e => raise e
    end (mkWorld (fs w) (stdout w) (uuid_count w) (prompts w ++ [prompt_of text])).
Proof.
  intros Hreply. unfold extract_knowledge_triples, bind at 1.
  unfold generate_content. now rewrite Hreply.
Qed.



(** C7, as amended. When the parse of the cleaned reply succeeds,
    [extract_knowledge_triples] returns the parsed value as it is,
    whatever JSON value that is; nothing checks that it is a list of
    objects. *)
Theorem extract_returns_parsed_value (E : env) (text reply : pystr) (w : world)
    (v : pyvalue) :
  model_reply E (length (prompts w)) (prompt_of text) = Ok reply ->
  Json.loads (cleaned_of (raw_of reply)) = Ok v ->
  extract_knowledge_triples E text w =
    (Ok v, mkWorld (fs w) (stdout w) (uuid_count w) (prompts w ++ [prompt_of text])).
Proof.
  intros Hreply Hv. rewrite (extract_unfold _ _ _ _ Hreply), Hv. reflexivity.
Qed.

Lemma extract_returns_parsed_value_witness :
  extract_knowledge_triples (env_replying (jlit "{'subject': 'Alice'}"))
                            (lit "some text") world0
  = (Ok (PyDict [(lit "subject", PyStr (lit "Alice"))]),
     mkWorld ∅ [] 0 [prompt_of (lit "some text")]).
Proof.
  apply (extract_returns_parsed_value (env_replying (jlit "{'subject': 'Alice'}"))
           (lit "some text") (jlit "{'subject': 'Alice'}") world0).
  - reflexivity.
  - reflexivity.
Defined.

(** C7, as stated, fails: the reply [42] parses, and the extractor
    returns the number 42, which is no list of objects. *)
Lemma parsed_scalar_is_returned :
  Json.loads (cleaned_of (raw_of (lit "42"))) = Ok (PyInt 42)
  /\ fst (extract_knowledge_triples (env_replying (lit "42")) (lit "some text") world0)
     = Ok (PyInt 42)
  /\ list_of_objects (PyInt 42) = false.
Proof. repeat split. Qed.

(** ** The tokenizer and the fence pattern *)

Import Json.

Section Tokenizer.
Implicit Types (st : lstate) (c : N) (s : pystr) (ts : list token).

Lemma lex_start_wf c st ts : lex_start c = Some (st, ts) -> wf_state st.
Proof.
  unfold lex_start.
  repeat (match goal with
          | |- context [if ?b then _ else _] => destruct b
          end; try (intros [= <- _]; exact I || reflexivity));
  discriminate.
Qed.

Lemma num_step_wf ph a c st ts : num_step ph a c = Some (st, ts) -> wf_state st.
Proof.
  assert (Hend : forall ph', num_end ph' a c = Some (st, ts) -> wf_state st).
  { intros ph'. unfold num_end. destruct (num_value ph' a); [|discriminate].
    destruct (lex_start c) as [[st' ts']|] eqn:Hs; [|discriminate].
    intros [= <- _]. eapply lex_start_wf; eauto. }
  destruct ph; cbn [num_step];
  repeat (match goal with
          | |- context [if ?b then _ else _] => destruct b
          end; try (intros [= <- _]; exact I)); try discriminate; apply Hend.
Qed.

Lemma lstep_wf st c st' ts : wf_state st -> lstep st c = Some (st', ts) -> wf_state st'.
Proof.
  destruct st as [|rest v| |ph a|acc hi|acc hi|acc hi k u]; cbn [lstep wf_state].
  - intros _. apply lex_start_wf.
  - destruct rest as [|x rest]; [discriminate|]. cbn [forallb].
    intros Hal. apply andb_prop in Hal as [_ Hal].
    destruct (N.eqb c x); [|discriminate].
    destruct rest; intros [= <- _]; [exact I|exact Hal].
  - intros _.
    repeat (match goal with
            | |- context [if ?b then _ else _] => destruct b
            end; try (intros [= <- _]; exact I || reflexivity)); discriminate.
  - intros _. apply num_step_wf.
  - intros _.
    repeat (match goal with
            | |- context [if ?b then _ else _] => destruct b
            end; try (intros [= <- _]; exact I)); discriminate.
  - intros _. destruct (N.eqb c 117); [intros [= <- _]; exact I|].
    destruct (escape_char c); [intros [= <- _]; exact I|discriminate].
  - intros _. destruct (hex_val c); [|discriminate].
    destruct k as [|[|k]]; intros [= <- _]; try exact I;
      unfold uni_end; destruct hi;
      repeat (match goal with
              | |- context [if ?b then _ else _] => destruct b
              end); exact I.
Qed.

(** A backtick is only accepted inside a string, and the tokenizer is
    inside the string afterwards. *)
Lemma lstep_backtick st st' ts :
  wf_state st -> lstep st BT = Some (st', ts) -> in_string st /\ in_string st'.
Proof.
  destruct st as [|rest v| |ph a|acc hi|acc hi|acc hi k u]; cbn [lstep wf_state].
  - discriminate.
  - destruct rest as [|x rest]; [discriminate|]. cbn [forallb].
    intros Hal. apply andb_prop in Hal as [Hx _].
    destruct (N.eqb BT x) eqn:Hbx; [|discriminate].
    apply N.eqb_eq in Hbx. subst x. discriminate Hx.
  - discriminate.
  - intros _. destruct ph; discriminate.
  - intros _ [= <- _]. split; exact I.
  - discriminate.
  - discriminate.
Qed.

(** A newline is only accepted between tokens or at the end of a
    number, and the tokenizer is between tokens afterwards. *)
Lemma lstep_newline st st' ts :
  wf_state st -> lstep st NL = Some (st', ts) -> st' = LIdle.
Proof.
  destruct st as [|rest v| |ph a|acc hi|acc hi|acc hi k u]; cbn [lstep wf_state].
  - intros _ [= <- _]. reflexivity.
  - destruct rest as [|x rest]; [discriminate|]. cbn [forallb].
    intros Hal. apply andb_prop in Hal as [Hx _].
    destruct (N.eqb NL x) eqn:Hbx; [|discriminate].
    apply N.eqb_eq in Hbx. subst x. discriminate Hx.
  - discriminate.
  - intros _. destruct ph; cbn; try discriminate.
    all: intros [= <- _]; reflexivity.
  - discriminate.
  - discriminate.
  - discriminate.
Qed.

Lemma lex_run_cons st c s ts :
  lex_run st (c :: s) = Some ts ->
  exists st' ts1 ts2, lstep st c = Some (st', ts1) /\ lex_run st' s = Some ts2.
Proof.
  cbn [lex_run]. destruct (lstep st c) as [[st' ts1]|]; [|discriminate].
  destruct (lex_run st' s) as [ts2|] eqn:Hrest; [|discriminate].
  intros _. exists st', ts1, ts2. split; [reflexivity|exact Hrest].
Qed.

(** Inside a string a run of backticks is never followed by the end of
    the text or by a newline. *)
Lemma backticks_in_string (n : nat) s tail st ts :
  in_string st -> lex_run st s = Some ts ->
  startswith (repeat BT n) (s ++ tail) = true ->
  at_eol (drop n (s ++ tail)) = false.
Proof.
  revert s st ts. induction n as [|n IH]; intros s st ts Hin Hrun Hsw.
  - destruct st; try contradiction. destruct s as [|c s]; [discriminate Hrun|].
    cbn. destruct (N.eqb c NL) eqn:Hc; [|reflexivity].
    apply N.eqb_eq in Hc. subst c. discriminate Hrun.
  - destruct s as [|c s]; [destruct st; try contradiction; discriminate Hrun|].
    cbn [repeat app startswith] in Hsw. apply andb_prop in Hsw as [Hc Hsw].
    apply N.eqb_eq in Hc. subst c.
    apply lex_run_cons in Hrun as (st' & ts1 & ts2 & Hstep & Hrun).
    destruct st; try contradiction. injection Hstep as <- _.
    cbn [app drop].
    exact (IH s (LStr (flush acc hi ++ [BT]) None) ts2 I Hrun Hsw).
Qed.

Lemma fence_match_accepted st c s tail bol ts :
  wf_state st -> (bol = true -> st = LIdle) ->
  lex_run st (c :: s) = Some ts ->
  fence_match bol ((c :: s) ++ tail) = None.
Proof.
  intros Hwf Hbol Hrun.
  apply lex_run_cons in Hrun as (st' & ts1 & ts2 & Hstep & Hrun).
  unfold fence_match. change ((c :: s) ++ tail) with (c :: (s ++ tail)).
  assert (Hsw3 : startswith ticks (c :: s ++ tail)
                 = N.eqb BT c && startswith [BT; BT] (s ++ tail)) by reflexivity.
  rewrite Hsw3. clear Hsw3.
  destruct (N.eqb BT c) eqn:Hc.
  - apply N.eqb_eq in Hc. subst c.
    destruct (lstep_backtick _ _ _ Hwf Hstep) as [Hin Hin'].
    destruct bol.
    { rewrite (Hbol eq_refl) in Hin. contradiction. }
    cbn [andb].
    destruct (startswith [BT; BT] (s ++ tail)) eqn:Hsw; [|reflexivity].
    change (drop 3 (BT :: s ++ tail)) with (drop 2 (s ++ tail)).
    now rewrite (backticks_in_string 2 s tail st' ts2 Hin' Hrun Hsw).
  - cbn [andb]. now rewrite andb_false_r.
Qed.

(** The pattern finds nothing in a text the tokenizer accepts, and
    deletes the closing fence after it. *)
Lemma re_sub_fence_accepted s st bol ts :
  wf_state st -> (bol = true -> st = LIdle) ->
  lex_run st s = Some ts ->
  re_sub_fence 0 bol (s ++ NL :: ticks) = s ++ [NL].
Proof.
  revert st bol ts. induction s as [|c s IH]; intros st bol ts Hwf Hbol Hrun.
  - destruct bol; reflexivity.
  - change ((c :: s) ++ NL :: ticks) with (c :: (s ++ NL :: ticks)).
    cbn [re_sub_fence].
    change (c :: (s ++ NL :: ticks)) with ((c :: s) ++ NL :: ticks).
    rewrite (fence_match_accepted _ _ _ _ _ _ Hwf Hbol Hrun).
    apply lex_run_cons in Hrun as (st' & ts1 & ts2 & Hstep & Hrun).
    cbn [app]. f_equal. apply (IH st' (N.eqb c NL) ts2).
    + exact (lstep_wf _ _ _ _ Hwf Hstep).
    + intros Hc. apply N.eqb_eq in Hc. subst c.
      exact (lstep_newline _ _ _ Hwf Hstep).
    + exact Hrun.
Qed.

Lemma space_char_cases c : py_isspace c = true -> In c space_chars.
Proof.
  unfold py_isspace. intros H. apply existsb_exists in H as (x & Hin & Heq).
  apply N.eqb_eq in Heq. now subst x.
Qed.

Lemma alpha_not_space c : is_alpha c = true -> py_isspace c = false.
Proof.
  intros Ha. destruct (py_isspace c) eqn:Hs; [|reflexivity].
  apply space_char_cases in Hs. cbn in Hs.
  repeat (destruct Hs as [<-|Hs]; [discriminate Ha|]). contradiction.
Qed.

(** Of the characters [str.strip] removes, the tokenizer accepts only
    JSON whitespace between tokens. *)
Lemma lex_start_space c st ts :
  py_isspace c = true -> lex_start c = Some (st, ts) -> st = LIdle /\ ts = [].
Proof.
  intros Hs. apply space_char_cases in Hs. cbn in Hs.
  repeat (destruct Hs as [<-|Hs];
          [vm_compute; intros H; (discriminate H || (injection H as <- <-; auto))|]).
  contradiction.
Qed.

(** A trailing space character that is accepted changes nothing. *)
Lemma lstep_space_end st c st' ts1 ts2 :
  wf_state st -> py_isspace c = true ->
  lstep st c = Some (st', ts1) -> lfinish st' = Some ts2 ->
  lfinish st = Some (ts1 ++ ts2).
Proof.
  intros Hwf Hs.
  destruct st as [|rest v| |ph a|acc hi|acc hi|acc hi k u].
  - cbn [lstep]. intros Hst. destruct (lex_start_space _ _ _ Hs Hst) as [-> ->].
    now intros [= <-].
  - cbn [lstep]. destruct rest as [|x rest]; [discriminate|].
    cbn [wf_state forallb] in Hwf. apply andb_prop in Hwf as [Hx _].
    destruct (N.eqb c x) eqn:Hcx; [|discriminate].
    apply N.eqb_eq in Hcx. subst x.
    rewrite (alpha_not_space _ Hx) in Hs. discriminate Hs.
  - apply space_char_cases in Hs. cbn in Hs.
    repeat (destruct Hs as [<-|Hs]; [discriminate|]). contradiction.
  - apply space_char_cases in Hs. cbn in Hs.
    repeat (destruct Hs as [<-|Hs];
            [destruct ph; cbn; try discriminate; unfold num_end; cbn;
             intros [= <- <-] [= <-]; reflexivity|]).
    contradiction.
  - apply space_char_cases in Hs. cbn in Hs.
    repeat (destruct Hs as [<-|Hs];
            [cbn; try discriminate; intros [= <- _]; discriminate|]).
    contradiction.
  - apply space_char_cases in Hs. cbn in Hs.
    repeat (destruct Hs as [<-|Hs]; [discriminate|]). contradiction.
  - apply space_char_cases in Hs. cbn in Hs.
    repeat (destruct Hs as [<-|Hs]; [discriminate|]). contradiction.
Qed.

Lemma lex_run_snoc_space s st c ts :
  wf_state st -> py_isspace c = true ->
  lex_run st (s ++ [c]) = Some ts -> lex_run st s = Some ts.
Proof.
  intros Hwf Hs. revert st ts Hwf.
  induction s as [|a s IH]; intros st ts Hwf; cbn [app lex_run].
  - destruct (lstep st c) as [[st' ts1]|] eqn:Hstep; [|discriminate].
    destruct (lfinish st') as [ts2|] eqn:Hfin; [|discriminate].
    intros [= <-]. exact (lstep_space_end _ _ _ _ _ Hwf Hs Hstep Hfin).
  - destruct (lstep st a) as [[st' ts1]|] eqn:Hstep; [|discriminate].
    destruct (lex_run st' (s ++ [c])) as [ts2|] eqn:Hrun; [|discriminate].
    intros [= <-]. now rewrite (IH st' ts2 (lstep_wf _ _ _ _ Hwf Hstep) Hrun).
Qed.

Lemma lex_run_snoc_newline s st ts :
  lex_run st s = Some ts -> lex_run st (s ++ [NL]) = Some ts.
Proof.
  revert st ts. induction s as [|a s IH]; intros st ts; cbn [app lex_run].
  - destruct st as [| | |ph a| | |]; try discriminate.
    + intros [= <-]. reflexivity.
    + cbn [lfinish]. destruct ph; cbn; try discriminate;
        intros [= <-]; reflexivity.
  - destruct (lstep st a) as [[st' ts1]|]; [|discriminate].
    destruct (lex_run st' s) as [ts2|] eqn:Hrun; [|discriminate].
    intros [= <-]. now rewrite (IH st' ts2 Hrun).
Qed.

Lemma rstrip_snoc s c :
  rstrip (s ++ [c]) = if py_isspace c then rstrip s else s ++ [c].
Proof.
  unfold rstrip. rewrite rev_app_distr. cbn [rev app lstrip].
  destruct (py_isspace c); [reflexivity|].
  cbn [rev]. now rewrite rev_involutive.
Qed.

Lemma tokenize_lstrip s ts : tokenize s = Some ts -> tokenize (lstrip s) = Some ts.
Proof.
  unfold tokenize. induction s as [|c s IH]; [auto|].
  cbn [lstrip]. destruct (py_isspace c) eqn:Hs; [|auto].
  cbn [lex_run lstep].
  destruct (lex_start c) as [[st' ts1]|] eqn:Hst; [|discriminate].
  destruct (lex_start_space _ _ _ Hs Hst) as [-> ->].
  destruct (lex_run LIdle s) as [ts2|]; [|discriminate].
  intros [= <-]. now apply IH.
Qed.

Lemma tokenize_rstrip s ts : tokenize s = Some ts -> tokenize (rstrip s) = Some ts.
Proof.
  unfold tokenize. induction s as [|c s IH] using rev_ind; [auto|].
  rewrite rstrip_snoc. destruct (py_isspace c) eqn:Hs; [|auto].
  intros Hrun. apply IH. exact (lex_run_snoc_space s LIdle c ts I Hs Hrun).
Qed.

Lemma tokenize_strip s ts : tokenize s = Some ts -> tokenize (strip s) = Some ts.
Proof. intros H. unfold strip. now apply tokenize_rstrip, tokenize_lstrip. Qed.

Lemma tokenize_between_newlines s ts :
  tokenize s = Some ts -> tokenize (NL :: s ++ [NL]) = Some ts.
Proof.
  unfold tokenize. intros H.
  change (lex_run LIdle (NL :: s ++ [NL]))
    with (match lex_run LIdle (s ++ [NL]) with
          | Some more => Some ([] ++ more)
          | None => None
          end).
  now rewrite (lex_run_snoc_newline _ _ _ H).
Qed.

End Tokenizer.

Lemma loads_tokens s v :
  loads s = Ok v <-> exists ts, tokenize s = Some ts /\ parse_run (SValue []) ts = Some v.
Proof.
  unfold loads. split.
  - destruct (tokenize s) as [ts|]; [|discriminate].
    destruct (parse_run _ ts) as [v'|] eqn:Hp; [|discriminate].
    intros [= <-]. eauto.
  - intros (ts & -> & ->). reflexivity.
Qed.

(** Stripping a text the decoder accepts does not change the result. *)
Lemma loads_strip s v : loads s = Ok v -> loads (strip s) = Ok v.
Proof.
  rewrite !loads_tokens. intros (ts & Ht & Hp). exists ts.
  split; [now apply tokenize_strip|exact Hp].
Qed.

Lemma raw_of_fenced A : raw_of (fenced A) = fenced A.
Proof.
  unfold raw_of, strip, fenced.
  change (lstrip (lit "```json" ++ NL :: A ++ NL :: lit "```"))
    with (lit "```json" ++ NL :: A ++ NL :: lit "```").
  replace (lit "```json" ++ NL :: A ++ NL :: lit "```")
    with ((lit "```json" ++ NL :: A ++ [NL; BT; BT]) ++ [BT]).
  - now rewrite rstrip_snoc.
  - rewrite <- !app_assoc. cbn. now rewrite <- app_assoc.
Qed.

Lemma re_sub_fence_opening X :
  re_sub_fence 0 true (lit "```json" ++ NL :: X) = NL :: re_sub_fence 0 true X.
Proof. reflexivity. Qed.

(** C4. For a well-formed JSON array text [A], cleaning the fenced text
    (strip, delete the fences, strip) and parsing it gives exactly the
    list that parsing [A] itself gives. *)
Theorem fenced_array_parses_like_bare (A : pystr) (triples : list pyvalue) :
  Json.loads A = Ok (PyList triples) ->
  Json.loads (cleaned_of (raw_of (fenced A))) = Ok (PyList triples).
Proof.
  intros Hload. rewrite raw_of_fenced. unfold cleaned_of, fenced.
  rewrite re_sub_fence_opening.
  apply loads_tokens in Hload as (ts & Htok & Hparse).
  change (lit "```") with ticks.
  rewrite (re_sub_fence_accepted A LIdle true ts I (fun _ => eq_refl) Htok).
  apply loads_strip, loads_tokens. exists ts.
  split; [now apply tokenize_between_newlines|exact Hparse].
Qed.

Lemma fenced_array_parses_like_bare_witness :
  Json.loads (cleaned_of (raw_of (fenced
    (jlit "[{'subject': 'Alice', 'predicate': 'knows', 'object': 'Bob'}]"))))
  = Ok (PyList [triple "Alice" "knows" "Bob"]).
Proof.
  apply (fenced_array_parses_like_bare
           (jlit "[{'subject': 'Alice', 'predicate': 'knows', 'object': 'Bob'}]")
           [triple "Alice" "knows" "Bob"]).
  reflexivity.
Defined.

(** ** The graph builder *)

Lemma filter_none {A} (P : A -> Prop) `{forall x, Decision (P x)} (l : list A) :
  (forall x, x ∈ l -> ~ P x) -> filter P l = [].
Proof.
  induction l as [|x l IH]; intros Hno; [reflexivity|].
  rewrite filter_cons_False by (apply Hno; left).
  apply IH. intros y Hy. apply Hno. now right.
Qed.

Section GraphLemmas.

Implicit Types (G : DiGraph) (e : node * node * pyvalue) (k : node * node).
Implicit Types (es : list (node * node * pyvalue)) (t : pyvalue).

Lemma truthy_scalar_node (x : pyvalue) :
  truthy x = true -> scalar x = true -> exists n, as_node x = Ok n.
Proof.
  destruct x; simpl; try discriminate; intros _ _;
    unfold as_node; simpl; eauto.
  destruct f as [s| s | |s m e]; simpl; eauto.
  destruct (odd_mantissa m e) as [m' e']. destruct (Z.leb 0 e'); eauto.
Qed.

Lemma edge_of_links t u v p : edge_of t = Some (u, v, p) <-> links t u p v.
Proof.
  unfold edge_of, links. split.
  - destruct (populated t); [|discriminate].
    destruct (as_node (field t "subject")) as [u'|]; [|discriminate].
    destruct (as_node (field t "object")) as [v'|]; [|discriminate].
    intros [= -> -> ->]. auto.
  - intros (-> & -> & -> & ->). reflexivity.
Qed.

Lemma graph_loop_edges (triples : list pyvalue) G :
  forallb is_triple triples = true ->
  graph_loop G triples = Ok (foldl add_labelled G (omap edge_of triples)).
Proof.
  revert G. induction triples as [|t rest IH]; intros G Hall; [reflexivity|].
  cbn [forallb] in Hall. apply andb_prop in Hall as [Ht Hall].
  specialize (fun G => IH G Hall). unfold is_triple in Ht.
  apply andb_prop in Ht as [Ht Ho]. apply andb_prop in Ht as [Hd Hs].
  destruct t as [| | | | | |d]; try discriminate Hd. clear Hd.
  cbn [graph_loop py_get omap list_omap].
  unfold edge_of, populated. cbn [field] in *.
  set (subj := default PyNone (dict_get d (lit "subject"))) in *.
  set (pred := default PyNone (dict_get d (lit "predicate"))) in *.
  set (obj := default PyNone (dict_get d (lit "object"))) in *.
  destruct (all_truthy subj pred obj) eqn:Hfull; [|apply IH].
  unfold all_truthy in Hfull.
  apply andb_prop in Hfull as [Hfull Hto]. apply andb_prop in Hfull as [Hts _].
  destruct (truthy_scalar_node subj Hts Hs) as [u Hu].
  destruct (truthy_scalar_node obj Hto Ho) as [v Hv].
  unfold add_edge. rewrite Hu, Hv. cbn [foldl]. apply IH.
Qed.

Lemma foldl_add_nodes es G (n : node) :
  n ∈ G_nodes (foldl add_labelled G es)
  <-> n ∈ G_nodes G \/ exists e, e ∈ es /\ (n = e.1.1 \/ n = e.1.2).
Proof.
  revert G. induction es as [|e es IH]; intros G; cbn [foldl].
  - split; [auto|]. intros [H|(e & He & _)]; [exact H|]. inversion He.
  - rewrite IH. unfold add_labelled at 1. cbn [G_nodes add_edge_nodes].
    rewrite !elem_of_union, !elem_of_singleton. split.
    + intros [[H|[H|H]]|(e' & He' & H)].
      * right. exists e. split; [left|]; auto.
      * right. exists e. split; [left|]; auto.
      * auto.
      * right. exists e'. split; [right|]; auto.
    + intros [H|(e' & He' & H)]; [auto|].
      apply elem_of_cons in He' as [->|He'].
      * left. destruct H; auto.
      * right. eauto.
Qed.

Lemma label_union (p q : pyvalue) :
  ({["label" := p]} : gmap string pyvalue) ∪ {["label" := q]} = {["label" := p]}.
Proof.
  rewrite <- insert_union_singleton_l. apply insert_singleton_eq.
Qed.

Lemma labels_for_snoc k es e :
  labels_for k (es ++ [e]) =
  labels_for k es ++ (if decide (e.1 = k) then [e.2] else []).
Proof.
  unfold labels_for. rewrite filter_app, fmap_app. f_equal.
  rewrite filter_cons, filter_nil. destruct (decide (e.1 = k)); reflexivity.
Qed.

Lemma foldl_add_adj es k :
  G_adj (foldl add_labelled empty_graph es) !! k
  = (fun p => {["label" := p]}) <$> last (labels_for k es).
Proof.
  induction es as [|e es IH] using rev_ind.
  - cbn. apply lookup_empty.
  - rewrite foldl_snoc, labels_for_snoc.
    unfold add_labelled at 1. cbn [G_adj add_edge_nodes].
    destruct e as [[u v] p]. cbn [fst snd].
    destruct (decide ((u, v) = k)) as [<-|Hne].
    + rewrite lookup_insert_eq, last_snoc. cbn. f_equal.
      rewrite IH. destruct (last _); cbn.
      * apply label_union.
      * apply (right_id _ _).
    + rewrite lookup_insert_ne by exact Hne. rewrite app_nil_r. exact IH.
Qed.

Lemma labels_for_elem k es p :
  p ∈ labels_for k es <-> (k.1, k.2, p) ∈ es.
Proof.
  unfold labels_for. rewrite list_elem_of_fmap. split.
  - intros ([[u v] q] & -> & Hin). apply list_elem_of_filter in Hin as [Hk Hin].
    cbn in Hk. subst k. exact Hin.
  - intros Hin. exists (k.1, k.2, p). split; [reflexivity|].
    apply list_elem_of_filter. split; [|exact Hin]. cbn. now destruct k.
Qed.

Lemma elem_of_edges (triples : list pyvalue) u v p :
  (u, v, p) ∈ omap edge_of triples <-> exists t, t ∈ triples /\ links t u p v.
Proof.
  rewrite list_elem_of_omap. split.
  - intros (t & Hin & He). exists t. split; [exact Hin|]. now apply edge_of_links.
  - intros (t & Hin & Hl). exists t. split; [exact Hin|]. now apply edge_of_links.
Qed.


Lemma edge_label_last es k :
  get_edge_attributes (foldl add_labelled empty_graph es) "label" !! k
  = last (labels_for k es).
Proof.
  unfold get_edge_attributes. rewrite lookup_omap, foldl_add_adj.
  destruct (last (labels_for k es)); cbn; [apply lookup_singleton_eq|reflexivity].
Qed.

Lemma edge_count_one G u v (d : gmap string pyvalue) :
  G_adj G !! (u, v) = Some d -> edge_count G u v = 1%nat.
Proof.
  intros Hk. unfold edge_count.
  rewrite <- (map_to_list_delete _ _ _ Hk), filter_cons_True by reflexivity.
  cbn [length]. f_equal. apply length_zero_iff_nil.
  apply filter_none. intros [k' d'] Hin Heq. cbn in Heq. subst k'.
  apply elem_of_map_to_list in Hin. rewrite lookup_delete_eq in Hin. discriminate.
Qed.

Lemma graph_loop_unusable (triples : list pyvalue) G :
  forallb unusable triples = true ->
  graph_loop G triples = Ok G.
Proof.
  induction triples as [|t rest IH]; intros Hall; [reflexivity|].
  cbn [forallb] in Hall. apply andb_prop in Hall as [Ht Hall].
  unfold unusable in Ht. apply andb_prop in Ht as [Hd Hun].
  destruct t as [| | | | | |d]; try discriminate Hd.
  apply negb_true_iff in Hun. unfold populated in Hun. cbn [field] in Hun.
  cbn [graph_loop py_get]. rewrite Hun. now apply IH.
Qed.

Lemma last_labels_remove_dups (triples : list pyvalue) k :
  last (labels_for k (omap edge_of (remove_dups triples)))
  = last (labels_for k (omap edge_of triples)).
Proof.
  induction triples as [|t rest IH]; [reflexivity|].
  cbn [remove_dups omap list_omap].
  destruct (decide_rel elem_of t rest) as [Hin|Hnot].
  - rewrite IH. destruct (edge_of t) as [[[u v] p]|] eqn:He; [|reflexivity].
    unfold labels_for. rewrite filter_cons. cbn [fst].
    destruct (decide ((u, v) = k)) as [<-|]; [|reflexivity].
    rewrite fmap_cons, last_cons. cbn [snd].
    fold (labels_for (u, v) (omap edge_of rest)).
    assert (Hp : p ∈ labels_for (u, v) (omap edge_of rest)).
    { apply labels_for_elem. cbn. apply list_elem_of_omap. eauto. }
    clear IH.
    destruct (last (labels_for (u, v) (omap edge_of rest))) eqn:Hl; [reflexivity|].
    apply last_None in Hl. rewrite Hl in Hp. inversion Hp.
  - cbn [omap list_omap]. destruct (edge_of t) as [e|]; [|exact IH].
    unfold labels_for in *. rewrite !filter_cons.
    destruct (decide (e.1 = k)); [|exact IH].
    rewrite !fmap_cons, !last_cons, IH. reflexivity.
Qed.

End GraphLemmas.

(** C3. For a list of triples the graph has an edge from the subject
    node to the object node exactly for the triples whose subject,
    predicate and object are all truthy; every edge carries as label the
    predicate of such a triple; and the nodes are exactly the subjects
    and objects of those triples, so that a triple with a missing or
    empty field contributes neither an edge nor a node. *)
Theorem graph_has_the_populated_triples (triples : list pyvalue) :
  forallb is_triple triples = true ->
  exists G, build_graph (PyList triples) = Ok G
    /\ (forall u v, (u, v) ∈ dom (G_adj G)
          <-> exists t p, t ∈ triples /\ links t u p v)
    /\ (forall u v p, get_edge_attributes G "label" !! (u, v) = Some p ->
          exists t, t ∈ triples /\ links t u p v)
    /\ (forall u v, (u, v) ∈ dom (G_adj G) ->
          is_Some (get_edge_attributes G "label" !! (u, v)))
    /\ (forall n, n ∈ G_nodes G
          <-> exists t u p v, t ∈ triples /\ links t u p v /\ (n = u \/ n = v)).
Proof.
  intros Hall. eexists. split; [exact (graph_loop_edges _ _ Hall)|].
  set (es := omap edge_of triples).
  assert (Hlab : forall u v p, last (labels_for (u, v) es) = Some p ->
                   exists t, t ∈ triples /\ links t u p v).
  { intros u v p Hl. apply last_Some_elem_of, labels_for_elem in Hl.
    now apply elem_of_edges in Hl. }
  assert (Hdom : forall u v, (u, v) ∈ dom (G_adj (foldl add_labelled empty_graph es))
                   -> is_Some (last (labels_for (u, v) es))).
  { intros u v Hd. apply elem_of_dom in Hd. rewrite foldl_add_adj in Hd.
    now apply fmap_is_Some in Hd. }
  repeat split.
  - intros Hd. destruct (Hdom _ _ Hd) as [p Hp].
    destruct (Hlab _ _ _ Hp) as (t & Hin & Hl). eauto.
  - intros (t & p & Hin & Hl). apply elem_of_dom. rewrite foldl_add_adj.
    apply fmap_is_Some, last_is_Some. intros Hnil.
    assert (Hp : p ∈ labels_for (u, v) es).
    { apply labels_for_elem, elem_of_edges. eauto. }
    rewrite Hnil in Hp. inversion Hp.
  - intros u v p. rewrite edge_label_last. apply Hlab.
  - intros u v Hd. rewrite edge_label_last. now apply Hdom.
  - intros Hn. apply foldl_add_nodes in Hn as [Hn|([[u v] p] & He & Hn)].
    + cbn in Hn. now apply not_elem_of_empty in Hn.
    + apply elem_of_edges in He as (t & Hin & Hl). exists t, u, p, v. auto.
  - intros (t & u & p & v & Hin & Hl & Hn). apply foldl_add_nodes. right.
    exists (u, v, p). split; [|exact Hn]. apply elem_of_edges. eauto.
Qed.

(** C5. When two fully populated triples join the same subject to the
    same object with different predicates, and no later triple joins
    that pair, the graph has exactly one edge between the two nodes and
    its label is the predicate of the later triple. *)
Theorem last_predicate_labels_the_edge
    (before between after : list pyvalue) (t1 t2 : pyvalue)
    (u v : node) (p1 p2 : pyvalue) :
  forallb is_triple (before ++ t1 :: between ++ t2 :: after) = true ->
  links t1 u p1 v ->
  links t2 u p2 v ->
  p1 <> p2 ->
  (forall t p, t ∈ after -> ~ links t u p v) ->
  exists G, build_graph (PyList (before ++ t1 :: between ++ t2 :: after)) = Ok G
    /\ edge_count G u v = 1%nat
    /\ G_adj G !! (u, v) = Some {["label" := p2]}
    /\ get_edge_attributes G "label" !! (u, v) = Some p2.
Proof.
  intros Hall _ H2 _ Hafter. eexists. split; [exact (graph_loop_edges _ _ Hall)|].
  set (triples := before ++ t1 :: between ++ t2 :: after).
  assert (Hlast : last (labels_for (u, v) (omap edge_of triples)) = Some p2).
  { unfold triples.
    replace (before ++ t1 :: between ++ t2 :: after)
      with ((before ++ t1 :: between) ++ [t2] ++ after)
      by (rewrite <- !app_assoc; reflexivity).
    rewrite !omap_app. cbn [omap list_omap].
    apply edge_of_links in H2. rewrite H2.
    unfold labels_for. rewrite !filter_app, !fmap_app.
    assert (Hnone : filter (fun e => e.1 = (u, v)) (omap edge_of after) = []).
    { apply filter_none. intros [[u' v'] p] Hin Heq.
      cbn in Heq. injection Heq as -> ->.
      apply elem_of_edges in Hin as (t & Hin & Hl). exact (Hafter t p Hin Hl). }
    rewrite Hnone, filter_cons_True by reflexivity.
    rewrite last_app, filter_nil. reflexivity. }
  assert (Hadj : G_adj (foldl add_labelled empty_graph (omap edge_of triples)) !! (u, v)
                 = Some {["label" := p2]}).
  { rewrite foldl_add_adj, Hlast. reflexivity. }
  split; [exact (edge_count_one _ _ _ _ Hadj)|]. split; [exact Hadj|].
  rewrite edge_label_last. exact Hlast.
Qed.

(** C10. Building the graph from a list of triples and from the list
    with its duplicates removed, last occurrences kept, gives the same
    graph: the same nodes, the same edges and the same labels. *)
Theorem duplicate_triples_change_nothing (triples : list pyvalue) :
  forallb is_triple triples = true ->
  exists G, build_graph (PyList triples) = Ok G
    /\ build_graph (PyList (remove_dups triples)) = Ok G.
Proof.
  intros Hall. eexists. split; [exact (graph_loop_edges _ _ Hall)|].
  assert (Hall' : forallb is_triple (remove_dups triples) = true).
  { rewrite forallb_forall in Hall |- *. intros t Hin.
    apply Hall, list_elem_of_In. apply list_elem_of_In in Hin.
    exact (proj1 (elem_of_remove_dups _ _) Hin). }
  cbn [build_graph py_iter]. rewrite (graph_loop_edges _ _ Hall'). f_equal.
  set (G1 := foldl _ _ (omap edge_of (remove_dups triples))).
  set (G2 := foldl _ _ (omap edge_of triples)).
  assert (Hnodes : G_nodes G1 = G_nodes G2).
  { apply set_eq. intros n. unfold G1, G2. rewrite !foldl_add_nodes.
    split; (intros [Hn|([[u v] p] & He & Hn)]; [left; exact Hn|right]);
      exists (u, v, p); (split; [|exact Hn]);
      apply elem_of_edges in He as (t & Hin & Hl); apply elem_of_edges;
      exists t; (split; [|exact Hl]); now apply elem_of_remove_dups. }
  assert (Hadj : G_adj G1 = G_adj G2).
  { apply map_eq. intros k. unfold G1, G2.
    now rewrite !foldl_add_adj, last_labels_remove_dups. }
  destruct G1, G2. cbn in *. now subst.
Qed.

Lemma graph_has_the_populated_triples_witness :
  let triples := [triple "Alice" "knows" "Bob"; triple "Bob" "" "Carol";
                  PyDict [(lit "subject", PyStr (lit "Dave"))]] in
  exists G, build_graph (PyList triples) = Ok G
    /\ (forall u v, (u, v) ∈ dom (G_adj G)
          <-> exists t p, t ∈ triples /\ links t u p v)
    /\ (forall u v p, get_edge_attributes G "label" !! (u, v) = Some p ->
          exists t, t ∈ triples /\ links t u p v)
    /\ (forall u v, (u, v) ∈ dom (G_adj G) ->
          is_Some (get_edge_attributes G "label" !! (u, v)))
    /\ (forall n, n ∈ G_nodes G
          <-> exists t u p v, t ∈ triples /\ links t u p v /\ (n = u \/ n = v)).
Proof.
  intros triples. apply (graph_has_the_populated_triples triples). reflexivity.
Defined.

Lemma last_predicate_labels_the_edge_witness :
  let alice := NodeStr (lit "Alice") in
  let bob := NodeStr (lit "Bob") in
  exists G,
    build_graph (PyList ([triple "Carol" "knows" "Alice"]
                         ++ triple "Alice" "knows" "Bob"
                         :: [triple "Bob" "knows" "Alice"]
                         ++ triple "Alice" "likes" "Bob"
                         :: [triple "Bob" "likes" "Carol"])) = Ok G
    /\ edge_count G alice bob = 1%nat
    /\ G_adj G !! (alice, bob) = Some {["label" := PyStr (lit "likes")]}
    /\ get_edge_attributes G "label" !! (alice, bob) = Some (PyStr (lit "likes")).
Proof.
  intros alice bob.
  apply (last_predicate_labels_the_edge
           [triple "Carol" "knows" "Alice"] [triple "Bob" "knows" "Alice"]
           [triple "Bob" "likes" "Carol"]
           (triple "Alice" "knows" "Bob") (triple "Alice" "likes" "Bob")
           alice bob (PyStr (lit "knows")) (PyStr (lit "likes"))).
  - reflexivity.
  - repeat split.
  - repeat split.
  - discriminate.
  - intros t p Hin (_ & Hu & _). apply list_elem_of_singleton in Hin. subst t.
    discriminate Hu.
Defined.

Lemma duplicate_triples_change_nothing_witness :
  exists G,
    build_graph (PyList [triple "A" "knows" "B"; triple "A" "likes" "B";
                         triple "A" "knows" "B"]) = Ok G
    /\ build_graph (PyList (remove_dups [triple "A" "knows" "B"; triple "A" "likes" "B";
                                         triple "A" "knows" "B"])) = Ok G.
Proof.
  apply (duplicate_triples_change_nothing
           [triple "A" "knows" "B"; triple "A" "likes" "B"; triple "A" "knows" "B"]).
  reflexivity.
Defined.

(** ** The upload handler *)

(** C8. A request without a file under the name [pdf] is answered with
    status 400 and the payload that maps [error] to [No PDF file
    uploaded], and
    the world stays as it was: no file is saved, no uuid is drawn and
    nothing is sent to the model. *)
Theorem upload_without_file (E : env) (req : request) (w : world) :
  files req !! lit "pdf" = None ->
  upload_pdf E req w = (Ok (error_response 400 "No PDF file uploaded"), w).
Proof.
  intros Hnone. unfold upload_pdf. rewrite Hnone. reflexivity.
Qed.

Lemma upload_without_file_witness :
  upload_pdf (env_replying (lit "[]")) (mkRequest ∅) world0
  = (Ok (error_response 400 "No PDF file uploaded"), world0).
Proof.
  apply (upload_without_file (env_replying (lit "[]")) (mkRequest ∅) world0).
  reflexivity.
Defined.

(** The extractors leave the files and the uuid counter alone. *)
Lemma extract_text_world (E : env) (path : pystr) (w w' : world) (r : res pystr) :
  extract_text_from_pdf E path w = (r, w') -> w' = w.
Proof.
  unfold extract_text_from_pdf, bind, fitz_open, ret.
  destruct (fs w !! path) as [[data|fig]|]; [destruct (fitz_pages E data)|..];
    intros [= _ <-]; reflexivity.
Qed.

Lemma extract_triples_world (E : env) (text : pystr) (w w' : world) (r : res pyvalue) :
  extract_knowledge_triples E text w = (r, w') ->
  fs w' = fs w /\ uuid_count w' = uuid_count w.
Proof.
  unfold extract_knowledge_triples, bind at 1. unfold generate_content.
  destruct (model_reply E _ _) as [reply|e].
  - destruct (Json.loads _) as [v|[]]; intros [= _ <-]; split; reflexivity.
  - intros [= _ <-]. split; reflexivity.
Qed.

(** [upload_pdf] once a file has come with the request. *)
Lemma upload_unfold (E : env) (req : request) (f : FileStorage) (w : world) :
  files req !! lit "pdf" = Some f ->
  filename f <> [] ->
  upload_pdf E req w =
    (let* text := extract_text_from_pdf E (pdf_path_of E w) in
     let* triples := extract_knowledge_triples E text in
     if negb (truthy triples) then
       ret (error_response 500 "No triples extracted from PDF")
     else
       let* hex' := uuid4 E in
       let image_filename := hex' ++ lit ".png" in
       let image_path := path_join (GENERATED_FOLDER E) image_filename in
       build_and_save_graph triples image_path ;;
       ret (mkResponse 200 (jsonify (lit "image_url")
                                    (lit "/generated/" ++ image_filename))))
    (after_save E f w).
Proof.
  intros Hfile Hname. unfold upload_pdf. rewrite Hfile.
  assert (Hhas : has_file (Some f) = true).
  { simpl. destruct (filename f); [congruence|reflexivity]. }
  rewrite Hhas. reflexivity.
Qed.

(** C1. When the triple extractor returns the empty list, the answer is
    status 500 with the payload that maps [error] to [No triples
    extracted from PDF]; the graph builder does not run: the only file
    written is the upload, and only its name was drawn. *)
Theorem upload_no_triples (E : env) (req : request) (f : FileStorage)
    (w w1 w2 : world) (text : pystr) :
  files req !! lit "pdf" = Some f ->
  filename f <> [] ->
  extract_text_from_pdf E (pdf_path_of E w) (after_save E f w) = (Ok text, w1) ->
  extract_knowledge_triples E text w1 = (Ok (PyList []), w2) ->
  upload_pdf E req w = (Ok (error_response 500 "No triples extracted from PDF"), w2)
  /\ fs w2 = <[pdf_path_of E w := FileUpload (stream f)]> (fs w)
  /\ uuid_count w2 = S (uuid_count w).
Proof.
  intros Hfile Hname Htext Htriples.
  split.
  - rewrite (upload_unfold _ _ _ _ Hfile Hname).
    unfold bind at 1. rewrite Htext.
    unfold bind at 1. rewrite Htriples. reflexivity.
  - apply extract_text_world in Htext. subst w1.
    apply extract_triples_world in Htriples as [-> ->]. split; reflexivity.
Qed.

Lemma upload_no_triples_witness :
  upload_pdf (env_replying (lit "[]")) (request_with "paper.pdf" (lit "Alice knows Bob.")) world0
  = (Ok (error_response 500 "No triples extracted from PDF"),
     mkWorld {[ lit "/app/uploads/0.pdf" := FileUpload (lit "Alice knows Bob.") ]}
             [] 1 [prompt_of (lit "Alice knows Bob.")]).
Proof.
  set (E := env_replying (lit "[]")).
  set (f := mkFile (lit "paper.pdf") (lit "Alice knows Bob.")).
  refine (proj1 (upload_no_triples E (request_with "paper.pdf" (lit "Alice knows Bob."))
                   f world0 (after_save E f world0)
                   (mkWorld {[ lit "/app/uploads/0.pdf" := FileUpload (lit "Alice knows Bob.") ]}
                            [] 1 [prompt_of (lit "Alice knows Bob.")])
                   (lit "Alice knows Bob.") _ _ _ _)).
  - reflexivity.
  - discriminate.
  - reflexivity.
  - reflexivity.
Defined.

Lemma draw_empty_graph : draw empty_graph = empty_figure.
Proof.
  unfold draw, empty_figure, get_edge_attributes. cbn.
  now rewrite dom_empty_L, omap_empty.
Qed.

Lemma nonempty_list_truthy (l : list pyvalue) : l <> [] -> truthy (PyList l) = true.
Proof. destruct l; [congruence|reflexivity]. Qed.

(** C9. The check for missing triples only asks whether the parsed
    list is empty: for a non-empty list in which every triple lacks a field or
    has an empty one, the answer is a success with an [image_url], and
    the image saved shows a graph without nodes and without edges. *)
Theorem upload_unusable_triples (E : env) (req : request) (f : FileStorage)
    (w w1 w2 : world) (text : pystr) (triples : list pyvalue) :
  files req !! lit "pdf" = Some f ->
  filename f <> [] ->
  extract_text_from_pdf E (pdf_path_of E w) (after_save E f w) = (Ok text, w1) ->
  extract_knowledge_triples E text w1 = (Ok (PyList triples), w2) ->
  triples <> [] ->
  forallb unusable triples = true ->
  upload_pdf E req w =
    (Ok (mkResponse 200
           (PyDict [(lit "image_url",
                     PyStr (lit "/generated/" ++ uuid4_hex E (uuid_count w2) ++ lit ".png"))])),
     mkWorld (<[image_path_of E w2 := FileImage empty_figure]> (fs w2))
             (stdout w2) (S (uuid_count w2)) (prompts w2))
  /\ fig_nodes empty_figure = ∅
  /\ fig_edges empty_figure = ∅.
Proof.
  intros Hfile Hname Htext Htriples Hne Hun.
  split; [|split; reflexivity].
  rewrite (upload_unfold _ _ _ _ Hfile Hname).
  unfold bind at 1. rewrite Htext.
  unfold bind at 1. rewrite Htriples.
  rewrite (nonempty_list_truthy _ Hne). cbn [negb].
  unfold bind at 1. cbn [uuid4].
  unfold build_and_save_graph, bind, lift, build_graph. cbn [py_iter].
  rewrite (graph_loop_unusable _ _ Hun), draw_empty_graph. reflexivity.
Qed.

Lemma upload_unusable_triples_witness :
  upload_pdf (env_replying (jlit "[{'subject': 'Alice', 'predicate': '', 'object': 'Bob'}, {'subject': 'Alice'}]"))
             (request_with "paper.pdf" (lit "Alice knows Bob.")) world0
  = (Ok (mkResponse 200 (PyDict [(lit "image_url", PyStr (lit "/generated/00.png"))])),
     mkWorld {[ lit "/app/uploads/0.pdf" := FileUpload (lit "Alice knows Bob.");
                lit "/app/generated/00.png" := FileImage empty_figure ]}
             [] 2 [prompt_of (lit "Alice knows Bob.")]).
Proof.
  set (reply := jlit "[{'subject': 'Alice', 'predicate': '', 'object': 'Bob'}, {'subject': 'Alice'}]").
  set (E := env_replying reply).
  set (f := mkFile (lit "paper.pdf") (lit "Alice knows Bob.")).
  pose proof (upload_unusable_triples E (request_with "paper.pdf" (lit "Alice knows Bob."))
                f world0 (after_save E f world0)
                (mkWorld {[ lit "/app/uploads/0.pdf" := FileUpload (lit "Alice knows Bob.") ]}
                         [] 1 [prompt_of (lit "Alice knows Bob.")])
                (lit "Alice knows Bob.")
                [triple "Alice" "" "Bob"; PyDict [(lit "subject", PyStr (lit "Alice"))]])
    as H.
  destruct H as [H _].
  - reflexivity.
  - discriminate.
  - reflexivity.
  - reflexivity.
  - discriminate.
  - reflexivity.
  - rewrite H. vm_compute. reflexivity.
Defined.

(** * Further properties *)

(** ** The path functions at work *)

Example normpath_cases :
  map normpath [lit "a/b"; lit "a//b/"; lit "a/./b"; lit "a/../b"; lit "../a"; lit "a/../../b";
                lit "/../a"; lit "//a"; lit "///a"; lit "."; lit "a/.."; lit "/"; lit "x.png"]
  = [lit "a/b"; lit "a/b"; lit "a/b"; lit "b"; lit "../a"; lit "../b";
     lit "/a"; lit "//a"; lit "/a"; lit "."; lit "."; lit "/"; lit "x.png"].
Proof. reflexivity. Qed.

Example safe_join_cases :
  map (safe_join (lit "/app/generated"))
      [lit "00.png"; lit "../uploads/0.pdf"; lit "/etc/passwd"; lit "a/../../x"; lit ""; lit ".."; lit "a/../b.png"]
  = [Some (lit "/app/generated/00.png"); None; None; None; Some (lit "/app/generated/"); None;
     Some (lit "/app/generated/b.png")].
Proof. reflexivity. Qed.

(** ** The upload handler, from request to answer *)

(** The world once the upload is saved and the prompt is sent. *)
Lemma text_of_saved_upload (E : env) (f : FileStorage) (w : world) :
  extract_text_from_pdf E (pdf_path_of E w) (after_save E f w)
  = (match fitz_pages E (stream f) with
     | Some pages => Ok (concat pages)
     | None => Raise FileDataError
     end, after_save E f w).
Proof.
  unfold extract_text_from_pdf, bind, fitz_open, ret, after_save. cbn [fs].
  rewrite lookup_insert_eq. destruct (fitz_pages E (stream f)); [|reflexivity].
  now rewrite str_join_empty.
Qed.





(** X2. A reply that parses to a falsy value of any type (an empty
    list, an empty object, an empty string, zero, [false], [null]) is
    answered like an empty list of triples: status 500, nothing printed,
    no image. *)
Theorem upload_reply_falsy (E : env) (req : request) (f : FileStorage)
    (w : world) (pages : list pystr) (reply : pystr) (v : pyvalue) :
  files req !! lit "pdf" = Some f ->
  filename f <> [] ->
  fitz_pages E (stream f) = Some pages ->
  model_reply E (length (prompts w)) (prompt_of (concat pages)) = Ok reply ->
  Json.loads (cleaned_of (raw_of reply)) = Ok v ->
  truthy v = false ->
  upload_pdf E req w =
    (Ok (error_response 500 "No triples extracted from PDF"),
     mkWorld (<[pdf_path_of E w := FileUpload (stream f)]> (fs w))
             (stdout w) (S (uuid_count w))
             (prompts w ++ [prompt_of (concat pages)])).
Proof.
  intros Hfile Hname Hpages Hreply Hv Hfalsy.
  rewrite (upload_unfold _ _ _ _ Hfile Hname).
  unfold bind at 1. rewrite text_of_saved_upload, Hpages.
  unfold bind at 1.
  rewrite (extract_unfold E (concat pages) (after_save E f w) reply Hreply), Hv.
  cbn [ret]. rewrite Hfalsy. reflexivity.
Qed.

Lemma upload_reply_falsy_witness :
  upload_pdf (env_replying (lit "{}"))
             (request_with "paper.pdf" (lit "Alice knows Bob.")) world0
  = (Ok (error_response 500 "No triples extracted from PDF"),
     mkWorld {[ lit "/app/uploads/0.pdf" := FileUpload (lit "Alice knows Bob.") ]}
             [] 1 [prompt_of (lit "Alice knows Bob.")]).
Proof.
  apply (upload_reply_falsy (env_replying (lit "{}"))
           (request_with "paper.pdf" (lit "Alice knows Bob."))
           (mkFile (lit "paper.pdf") (lit "Alice knows Bob.")) world0
           [lit "Alice knows Bob."] (lit "{}") (PyDict [])).
  - reflexivity.
  - discriminate.
  - reflexivity.
  - reflexivity.
  - reflexivity.
  - reflexivity.
Defined.



(** X4. A document the PDF reader cannot open makes the handler raise
    [FileDataError], unhandled; the upload was saved before and stays on
    disk, and nothing was sent to the model. *)
Theorem upload_unreadable_document (E : env) (req : request) (f : FileStorage)
    (w : world) :
  files req !! lit "pdf" = Some f ->
  filename f <> [] ->
  fitz_pages E (stream f) = None ->
  upload_pdf E req w =
    (Raise FileDataError,
     mkWorld (<[pdf_path_of E w := FileUpload (stream f)]> (fs w))
             (stdout w) (S (uuid_count w)) (prompts w)).
Proof.
  intros Hfile Hname Hpages.
  rewrite (upload_unfold _ _ _ _ Hfile Hname).
  unfold bind at 1. rewrite text_of_saved_upload, Hpages. reflexivity.
Qed.

(** An environment whose PDF reader rejects every document. *)
Lemma upload_unreadable_document_witness :
  let E := mkEnv (lit "/app") (fun n => repeat 48%N (S n)) (fun _ => None)
                 (fun _ _ => Ok (lit "[]")) in
  upload_pdf E (request_with "notes.txt" (lit "not a pdf")) world0
  = (Raise FileDataError,
     mkWorld {[ lit "/app/uploads/0.pdf" := FileUpload (lit "not a pdf") ]} [] 1 []).
Proof.
  intros E.
  apply (upload_unreadable_document E (request_with "notes.txt" (lit "not a pdf"))
           (mkFile (lit "notes.txt") (lit "not a pdf")) world0).
  - reflexivity.
  - discriminate.
  - reflexivity.
Defined.

(** X5. An exception of the model client leaves the handler as it
    is; the upload stays on disk, the prompt was sent once, and no image
    is written. *)
Theorem upload_model_failure (E : env) (req : request) (f : FileStorage)
    (w : world) (pages : list pystr) (e : exn) :
  files req !! lit "pdf" = Some f ->
  filename f <> [] ->
  fitz_pages E (stream f) = Some pages ->
  model_reply E (length (prompts w)) (prompt_of (concat pages)) = Raise e ->
  upload_pdf E req w =
    (Raise e,
     mkWorld (<[pdf_path_of E w := FileUpload (stream f)]> (fs w))
             (stdout w) (S (uuid_count w))
             (prompts w ++ [prompt_of (concat pages)])).
Proof.
  intros Hfile Hname Hpages Hreply.
  rewrite (upload_unfold _ _ _ _ Hfile Hname).
  unfold bind at 1. rewrite text_of_saved_upload, Hpages.
  unfold bind at 1. unfold extract_knowledge_triples, bind at 1.
  unfold generate_content. cbn [prompts after_save]. rewrite Hreply. reflexivity.
Qed.

Lemma upload_model_failure_witness :
  let E := mkEnv (lit "/app") (fun n => repeat 48%N (S n))
                 (fun data => Some (split_pages data))
                 (fun _ _ => Raise ModelServiceError) in
  upload_pdf E (request_with "paper.pdf" (lit "Alice knows Bob.")) world0
  = (Raise ModelServiceError,
     mkWorld {[ lit "/app/uploads/0.pdf" := FileUpload (lit "Alice knows Bob.") ]}
             [] 1 [prompt_of (lit "Alice knows Bob.")]).
Proof.
  intros E.
  apply (upload_model_failure E (request_with "paper.pdf" (lit "Alice knows Bob."))
           (mkFile (lit "paper.pdf") (lit "Alice knows Bob.")) world0
           [lit "Alice knows Bob."] ModelServiceError).
  - reflexivity.
  - discriminate.
  - reflexivity.
  - reflexivity.
Defined.

(** What iterating a truthy value that is no list leads to. *)
Lemma build_graph_not_a_list (v : pyvalue) :
  truthy v = true ->
  (forall l, v <> PyList l) ->
  build_graph v = Raise (match v with
                         | PyStr _ | PyDict _ => AttributeError
                         | _ => TypeError
                         end).
Proof.
  intros Ht Hnl. destruct v as [| | | |s|l|d]; try reflexivity.
  - destruct s; [discriminate Ht|reflexivity].
  - now destruct (Hnl l).
  - destruct d as [|[k x] d]; [discriminate Ht|reflexivity].
Qed.

(** X6. A reply that parses to a truthy value that is no list passes
    the emptiness check and fails in the graph builder: [TypeError] for a
    number or [true], [AttributeError] for a non-empty string or object.
    The name of the image was already drawn, but no image is written. *)
Theorem upload_reply_not_a_list (E : env) (req : request) (f : FileStorage)
    (w : world) (pages : list pystr) (reply : pystr) (v : pyvalue) :
  files req !! lit "pdf" = Some f ->
  filename f <> [] ->
  fitz_pages E (stream f) = Some pages ->
  model_reply E (length (prompts w)) (prompt_of (concat pages)) = Ok reply ->
  Json.loads (cleaned_of (raw_of reply)) = Ok v ->
  truthy v = true ->
  (forall l, v <> PyList l) ->
  upload_pdf E req w =
    (Raise (match v with
            | PyStr _ | PyDict _ => AttributeError
            | _ => TypeError
            end),
     mkWorld (<[pdf_path_of E w := FileUpload (stream f)]> (fs w))
             (stdout w) (S (S (uuid_count w)))
             (prompts w ++ [prompt_of (concat pages)])).
Proof.
  intros Hfile Hname Hpages Hreply Hv Ht Hnl.
  rewrite (upload_unfold _ _ _ _ Hfile Hname).
  unfold bind at 1. rewrite text_of_saved_upload, Hpages.
  unfold bind at 1.
  rewrite (extract_unfold E (concat pages) (after_save E f w) reply Hreply), Hv.
  cbn [ret]. rewrite Ht. cbn [negb].
  unfold bind at 1. cbn [uuid4].
  unfold build_and_save_graph, bind, lift.
  rewrite (build_graph_not_a_list v Ht Hnl). reflexivity.
Qed.

Lemma upload_reply_not_a_list_witness :
  let reply := jlit "{'subject': 'Alice', 'predicate': 'knows', 'object': 'Bob'}" in
  upload_pdf (env_replying reply) (request_with "paper.pdf" (lit "Alice knows Bob.")) world0
  = (Raise AttributeError,
     mkWorld {[ lit "/app/uploads/0.pdf" := FileUpload (lit "Alice knows Bob.") ]}
             [] 2 [prompt_of (lit "Alice knows Bob.")]).
Proof.
  intros reply.
  apply (upload_reply_not_a_list (env_replying reply)
           (request_with "paper.pdf" (lit "Alice knows Bob."))
           (mkFile (lit "paper.pdf") (lit "Alice knows Bob.")) world0
           [lit "Alice knows Bob."] reply (triple "Alice" "knows" "Bob")).
  - reflexivity.
  - discriminate.
  - reflexivity.
  - reflexivity.
  - reflexivity.
  - reflexivity.
  - discriminate.
Defined.

(** X9. A file part without a file name is falsy, so it is answered
    like a missing file: status 400, and the world stays as it was. *)
Theorem upload_file_without_name (E : env) (req : request) (f : FileStorage)
    (w : world) :
  files req !! lit "pdf" = Some f ->
  filename f = [] ->
  upload_pdf E req w = (Ok (error_response 400 "No PDF file uploaded"), w).
Proof.
  intros Hfile Hname. unfold upload_pdf. rewrite Hfile. cbn [has_file].
  rewrite Hname. reflexivity.
Qed.

Lemma upload_file_without_name_witness :
  upload_pdf (env_replying (lit "[]")) (request_with "" (lit "Alice knows Bob.")) world0
  = (Ok (error_response 400 "No PDF file uploaded"), world0).
Proof.
  apply (upload_file_without_name (env_replying (lit "[]"))
           (request_with "" (lit "Alice knows Bob."))
           (mkFile [] (lit "Alice knows Bob.")) world0).
  - reflexivity.
  - reflexivity.
Defined.

(** What [extract_knowledge_triples] does to the world, whatever the
    model answers. *)
Lemma extract_effects (E : env) (text : pystr) (w w' : world) (r : res pyvalue) :
  extract_knowledge_triples E text w = (r, w') ->
  fs w' = fs w
  /\ uuid_count w' = uuid_count w
  /\ prompts w' = prompts w ++ [prompt_of text]
  /\ (stdout w' = stdout w
      \/ exists raw, stdout w' = (stdout w ++ [parse_failure_line]) ++ [raw]
                     /\ r = Ok (PyList [])).
Proof.
  unfold extract_knowledge_triples, bind at 1. unfold generate_content.
  destruct (model_reply E _ _) as [reply|e].
  - destruct (Json.loads _) as [v|[]]; intros [= <- <-]; cbn;
      repeat split; auto.
    right. eexists. split; reflexivity.
  - intros [= <- <-]. cbn. auto.
Qed.

(** The path of the image of a request that starts in world [w]. *)
Lemma upload_cases (E : env) (req : request) (w : world) :
  upload_pdf E req w =
    match files req !! lit "pdf" with
    | None => (Ok (error_response 400 "No PDF file uploaded"), w)
    | Some f =>
        if has_file (Some f) then
          match fitz_pages E (stream f) with
          | None => (Raise FileDataError, after_save E f w)
          | Some pages =>
              match extract_knowledge_triples E (concat pages) (after_save E f w) with
              | (Raise e, w2) => (Raise e, w2)
              | (Ok triples, w2) =>
                  if truthy triples then
                    match build_graph triples with
                    | Ok G =>
                        (Ok (mkResponse 200
                               (PyDict [(lit "image_url",
                                         PyStr (lit "/generated/"
                                                ++ uuid4_hex E (uuid_count w2) ++ lit ".png"))])),
                         mkWorld (<[image_path_of E w2 := FileImage (draw G)]> (fs w2))
                                 (stdout w2) (S (uuid_count w2)) (prompts w2))
                    | Raise e =>
                        (Raise e, mkWorld (fs w2) (stdout w2) (S (uuid_count w2)) (prompts w2))
                    end
                  else (Ok (error_response 500 "No triples extracted from PDF"), w2)
              end
          end
        else (Ok (error_response 400 "No PDF file uploaded"), w)
    end.
Proof.
  destruct (files req !! lit "pdf") as [f|] eqn:Hfile.
  - destruct (has_file (Some f)) eqn:Hhas.
    + assert (Hname : filename f <> []).
      { intros Hn. cbn in Hhas. rewrite Hn in Hhas. discriminate Hhas. }
      rewrite (upload_unfold _ _ _ _ Hfile Hname).
      unfold bind at 1. rewrite text_of_saved_upload.
      destruct (fitz_pages E (stream f)) as [pages|]; [|reflexivity].
      unfold bind at 1.
      destruct (extract_knowledge_triples E (concat pages) (after_save E f w))
        as [[triples|e] w2]; [|reflexivity].
      destruct (truthy triples); [|reflexivity]. cbn [negb].
      unfold bind at 1. cbn [uuid4].
      unfold build_and_save_graph, bind, lift.
      destruct (build_graph triples); reflexivity.
    + unfold upload_pdf. rewrite Hfile, Hhas. reflexivity.
  - unfold upload_pdf. rewrite Hfile. reflexivity.
Qed.

(** X7. Whatever the request, the reader and the model do, the
    handler ends in one of three ways: status 400 and no file written;
    status 500 or an exception, with only the upload written; status 200
    with the upload and exactly one image written, at the path the
    answer names. An image is written exactly when the answer is 200. *)
Theorem upload_one_image_or_none (E : env) (req : request) (w : world) :
  let r := fst (upload_pdf E req w) in
  let w' := snd (upload_pdf E req w) in
  let pdf_path := pdf_path_of E w in
  let image_filename := uuid4_hex E (S (uuid_count w)) ++ lit ".png" in
  let image_path := path_join (GENERATED_FOLDER E) image_filename in
  (r = Ok (error_response 400 "No PDF file uploaded") /\ fs w' = fs w)
  \/ (exists f, files req !! lit "pdf" = Some f
        /\ fs w' = <[pdf_path := FileUpload (stream f)]> (fs w)
        /\ (r = Ok (error_response 500 "No triples extracted from PDF")
            \/ exists e, r = Raise e))
  \/ (exists f G, files req !! lit "pdf" = Some f
        /\ fs w' = <[image_path := FileImage (draw G)]>
                     (<[pdf_path := FileUpload (stream f)]> (fs w))
        /\ r = Ok (mkResponse 200
                     (PyDict [(lit "image_url",
                               PyStr (lit "/generated/" ++ image_filename))]))).
Proof.
  cbv zeta. rewrite upload_cases.
  destruct (files req !! lit "pdf") as [f|] eqn:Hfile; [|left; auto].
  destruct (has_file (Some f)); [|left; auto].
  destruct (fitz_pages E (stream f)) as [pages|].
  2:{ right. left. exists f. cbn. eauto. }
  destruct (extract_knowledge_triples E (concat pages) (after_save E f w))
    as [[triples|e] w2] eqn:Hex;
    apply extract_effects in Hex as (Hfs & Hcount & _ & _); cbn [fs after_save] in Hfs.
  2:{ right. left. exists f. cbn. eauto. }
  destruct (truthy triples).
  2:{ right. left. exists f. cbn. eauto. }
  destruct (build_graph triples) as [G|e].
  - right. right. exists f, G. cbn [fst snd fs].
    unfold image_path_of. rewrite Hfs, Hcount. cbn [uuid_count after_save]. auto.
  - right. left. exists f. cbn. eauto.
Qed.

(** X8. A request calls the model at most once, whatever the outcome
    (no retry), draws at most two uuids, and prints either nothing or the
    two lines of a parse failure. *)
Theorem upload_single_attempt (E : env) (req : request) (w : world) :
  let w' := snd (upload_pdf E req w) in
  (prompts w' = prompts w \/ exists prompt, prompts w' = prompts w ++ [prompt])
  /\ (uuid_count w <= uuid_count w' <= uuid_count w + 2)%nat
  /\ (stdout w' = stdout w
      \/ exists raw, stdout w' = (stdout w ++ [parse_failure_line]) ++ [raw]).
Proof.
  cbv zeta. rewrite upload_cases.
  destruct (files req !! lit "pdf") as [f|]; [|cbn; split; [auto|split; [lia|auto]]].
  destruct (has_file (Some f)); [|cbn; split; [auto|split; [lia|auto]]].
  destruct (fitz_pages E (stream f)) as [pages|].
  2:{ cbn. split; [auto|split; [lia|auto]]. }
  destruct (extract_knowledge_triples E (concat pages) (after_save E f w))
    as [[triples|e] w2] eqn:Hex;
    apply extract_effects in Hex as (_ & Hcount & Hprompts & Hout);
    cbn [uuid_count prompts stdout after_save] in Hcount, Hprompts, Hout.
  - assert (Hout' : stdout w2 = stdout w
                    \/ exists raw, stdout w2 = (stdout w ++ [parse_failure_line]) ++ [raw]).
    { destruct Hout as [Hout|(raw & Hout & _)]; eauto. }
    destruct (truthy triples); [destruct (build_graph triples)|];
      cbn [snd prompts uuid_count stdout]; rewrite ?Hcount, Hprompts;
      (split; [eauto|split; [lia|exact Hout']]).
  - cbn [snd]. rewrite Hcount, Hprompts.
    split; [eauto|split; [lia|]].
    destruct Hout as [Hout|(raw & Hout & _)]; eauto.
Qed.

(** ** Serving the generated images *)

Section Paths.
Implicit Types (a b s : pystr) (comps : list pystr).

Lemma path_join_absolute a b : startswith [SLASH] b = true -> path_join a b = b.
Proof. unfold path_join, SLASH. now intros ->. Qed.

Lemma path_join_relative a b c :
  startswith [SLASH] b = false -> last a = Some c -> c <> SLASH ->
  path_join a b = a ++ SLASH :: b.
Proof.
  unfold path_join, SLASH. intros -> -> Hc.
  destruct (N.eqb c 47) eqn:Heq; [|reflexivity].
  apply N.eqb_eq in Heq. contradiction.
Qed.

(** The two folders lie side by side. *)
Lemma folders_shape (E : env) :
  exists pre, UPLOAD_FOLDER E = pre ++ lit "uploads"
              /\ GENERATED_FOLDER E = pre ++ lit "generated".
Proof.
  unfold UPLOAD_FOLDER, GENERATED_FOLDER, path_join.
  change (startswith [47%N] (lit "uploads")) with false.
  change (startswith [47%N] (lit "generated")) with false.
  cbv iota. destruct (last (BASE_DIR E)) as [c|].
  - destruct (N.eqb c 47).
    + now exists (BASE_DIR E).
    + exists (BASE_DIR E ++ [47%N]). now rewrite <- !app_assoc.
  - now exists [].
Qed.

Lemma generated_folder_last (E : env) : last (GENERATED_FOLDER E) = Some 100%N.
Proof.
  destruct (folders_shape E) as (pre & _ & ->). rewrite last_app. reflexivity.
Qed.

Lemma upload_folder_last (E : env) : last (UPLOAD_FOLDER E) = Some 115%N.
Proof.
  destruct (folders_shape E) as (pre & -> & _). rewrite last_app. reflexivity.
Qed.

Lemma startswith_app p a b : startswith p a = true -> startswith p (a ++ b) = true.
Proof.
  revert a. induction p as [|x p IH]; intros [|y a]; cbn; try discriminate; auto.
  intros H. apply andb_prop in H as [-> H]. cbn. now apply IH.
Qed.

Lemma generated_folder_absolute (E : env) :
  startswith [SLASH] (BASE_DIR E) = true ->
  startswith [SLASH] (GENERATED_FOLDER E) = true.
Proof.
  intros Habs. unfold GENERATED_FOLDER, path_join.
  change (startswith [47%N] (lit "generated")) with false. cbv iota.
  destruct (last (BASE_DIR E)) as [c|] eqn:Hl.
  - destruct (N.eqb c 47); now apply startswith_app.
  - apply last_None in Hl. rewrite Hl in Habs. discriminate Habs.
Qed.

(** The path [send_from_directory] looks at for a file name that
    [safe_join] lets through. *)
Lemma served_path (E : env) (rel : pystr) :
  startswith [SLASH] (BASE_DIR E) = true ->
  startswith [SLASH] rel = false ->
  path_join (BASE_DIR E) (path_join (GENERATED_FOLDER E) rel)
  = GENERATED_FOLDER E ++ SLASH :: rel.
Proof.
  intros Habs Hrel.
  rewrite (path_join_relative _ _ _ Hrel (generated_folder_last E)) by discriminate.
  apply path_join_absolute, startswith_app, generated_folder_absolute, Habs.
Qed.

Lemma split_on_no_sep sep s : ~ In sep s -> split_on sep s = [s].
Proof.
  induction s as [|c s IH]; intros Hno; [reflexivity|].
  cbn [split_on]. destruct (N.eqb c sep) eqn:Hc.
  - apply N.eqb_eq in Hc. subst c. exfalso. apply Hno. now left.
  - rewrite IH; [reflexivity|]. intros Hin. apply Hno. now right.
Qed.

(** A single component that is neither empty nor [.] is its own normal
    form. *)
Lemma normpath_component s :
  s <> [] -> s <> dot -> ~ In SLASH s -> normpath s = s.
Proof.
  intros Hne Hdot Hno. unfold normpath. destruct s as [|c s]; [congruence|].
  assert (Hc : c <> SLASH) by (intros ->; apply Hno; now left).
  assert (Hn : initial_slashes (c :: s) = 0%nat).
  { unfold initial_slashes.
    change (startswith [SLASH] (c :: s)) with (N.eqb SLASH c && true).
    destruct (N.eqb SLASH c) eqn:Heq; [|reflexivity].
    apply N.eqb_eq in Heq. congruence. }
  rewrite Hn, (split_on_no_sep _ _ Hno). cbn [foldl Nat.eqb negb].
  unfold norm_step.
  rewrite (bool_decide_eq_false_2 (c :: s = [])) by discriminate.
  rewrite (bool_decide_eq_false_2 (c :: s = dot)) by exact Hdot.
  cbn [orb]. rewrite (bool_decide_eq_true_2 ([] = [])) by reflexivity.
  cbn. now rewrite orb_true_r.
Qed.

End Paths.

Section Serving.
Implicit Types (E : env) (w : world) (h name rel : pystr).

Lemma hex_name_chars h c :
  is_hex_name h = true -> In c h -> c <> SLASH /\ c <> 46%N.
Proof.
  unfold is_hex_name. intros H Hin. apply andb_prop in H as [_ H].
  rewrite forallb_forall in H. specialize (H c Hin).
  unfold hex_val in H.
  split; intros ->; discriminate H.
Qed.

Lemma hex_name_head h :
  is_hex_name h = true -> exists c t, h = c :: t /\ c <> SLASH /\ c <> 46%N.
Proof.
  intros H. destruct h as [|c t]; [discriminate H|].
  exists c, t. split; [reflexivity|]. apply (hex_name_chars _ _ H). now left.
Qed.

Lemma image_name_plain h :
  is_hex_name h = true ->
  let name := h ++ lit ".png" in
  normpath name = name
  /\ startswith [SLASH] name = false
  /\ name <> dotdot
  /\ startswith (lit "../") name = false
  /\ name <> [].
Proof.
  intros H name.
  destruct (hex_name_head h H) as (c & t & -> & Hc & Hd).
  assert (Hs : N.eqb SLASH c = false) by (apply N.eqb_neq; congruence).
  assert (Hp : N.eqb 46 c = false) by (apply N.eqb_neq; congruence).
  repeat split.
  - apply normpath_component.
    + discriminate.
    + unfold name. change dot with [46%N]. intros Heq.
      injection Heq as Hc' _. congruence.
    + unfold name. rewrite in_app_iff. intros [Hin|Hin].
      * now apply (hex_name_chars _ _ H) in Hin as [? _].
      * cbn in Hin. unfold SLASH in Hin.
        repeat (destruct Hin as [Hin|Hin]; [discriminate Hin|]). contradiction.
  - unfold name. cbn [app startswith]. now rewrite Hs.
  - unfold name. change dotdot with [46%N; 46%N]. intros Heq.
    injection Heq as Hc' _. congruence.
  - unfold name. change (lit "../") with [46%N; 46%N; SLASH].
    cbn [app startswith]. now rewrite Hp.
  - discriminate.
Qed.

Lemma not_a_directory_path p c :
  last p = Some c -> c <> SLASH -> c <> 46%N ->
  endswith [SLASH] p = false /\ endswith (lit "/.") p = false.
Proof.
  intros Hl Hs Hd. apply last_Some in Hl as [l ->].
  unfold endswith. rewrite rev_app_distr. cbn [rev app].
  change (rev (lit "/.")) with [46%N; SLASH]. cbn [startswith].
  split.
  - replace (N.eqb SLASH c) with false; [reflexivity|].
    symmetry. apply N.eqb_neq. congruence.
  - replace (N.eqb 46 c) with false; [reflexivity|].
    symmetry. apply N.eqb_neq. congruence.
Qed.

Lemma generated_folder_nonempty E : GENERATED_FOLDER E <> [].
Proof.
  intros Heq. pose proof (generated_folder_last E) as H.
  rewrite Heq in H. discriminate H.
Qed.

(** A generated image is served under the name it was saved with. *)
Lemma serve_image_name E w h (f : file) :
  startswith [SLASH] (BASE_DIR E) = true ->
  is_hex_name h = true ->
  fs w !! (GENERATED_FOLDER E ++ SLASH :: h ++ lit ".png") = Some f ->
  serve_static E (h ++ lit ".png") w
  = SendFile (GENERATED_FOLDER E ++ SLASH :: h ++ lit ".png") f.
Proof.
  intros Habs Hh Hfile.
  destruct (image_name_plain h Hh) as (Hnorm & Hslash & Hdd & Hup & Hne).
  unfold serve_static, send_from_directory, safe_join.
  destruct (GENERATED_FOLDER E) as [|g0 gs] eqn:Hgen.
  { now destruct (generated_folder_nonempty E). }
  rewrite <- Hgen in *.
  destruct (h ++ lit ".png") as [|n0 ns] eqn:Hname; [congruence|].
  rewrite <- Hname in *. rewrite Hnorm, Hslash, Hup.
  rewrite (bool_decide_eq_false_2 _ Hdd). cbn [orb].
  rewrite (served_path E _ Habs Hslash).
  unfold os_isfile.
  assert (Hlast : last (GENERATED_FOLDER E ++ SLASH :: h ++ lit ".png") = Some 103%N).
  { change (SLASH :: h ++ lit ".png") with ([SLASH] ++ h ++ lit ".png").
    rewrite !last_app. reflexivity. }
  destruct (not_a_directory_path _ _ Hlast) as [-> ->]; try discriminate.
  cbn [orb]. now rewrite Hfile.
Qed.

End Serving.

(** X10. Upload, then fetch: whenever [upload_pdf] answers 200 with an
    [image_url], that URL is [/generated/] followed by a file name, and
    [serve_static] on this name, in the world the upload left, sends the
    drawing of a graph from the generated folder. It holds for an
    installation at an absolute path and hexadecimal uuid names. *)
Theorem fetch_after_upload (E : env) (req : request) (w w' : world) (url : pystr) :
  startswith [SLASH] (BASE_DIR E) = true ->
  is_hex_name (uuid4_hex E (S (uuid_count w))) = true ->
  upload_pdf E req w
    = (Ok (mkResponse 200 (PyDict [(lit "image_url", PyStr url)])), w') ->
  exists name G,
    url = lit "/generated/" ++ name
    /\ serve_static E name w'
       = SendFile (GENERATED_FOLDER E ++ SLASH :: name) (FileImage (draw G)).
Proof.
  intros Habs Hhex. rewrite upload_cases.
  destruct (files req !! lit "pdf") as [f|]; [|discriminate].
  destruct (has_file (Some f)); [|discriminate].
  destruct (fitz_pages E (stream f)) as [pages|]; [|discriminate].
  destruct (extract_knowledge_triples E (concat pages) (after_save E f w))
    as [[triples|e] w2] eqn:Hex; [|discriminate].
  apply extract_effects in Hex as (_ & Hcount & _ & _).
  cbn [uuid_count after_save] in Hcount.
  destruct (truthy triples); [|discriminate].
  destruct (build_graph triples) as [G|e]; [|discriminate].
  rewrite Hcount. intros [= <- <-].
  exists (uuid4_hex E (S (uuid_count w)) ++ lit ".png"), G.
  split; [reflexivity|].
  apply serve_image_name; [exact Habs|exact Hhex|].
  cbn [fs]. unfold image_path_of. rewrite Hcount.
  destruct (image_name_plain _ Hhex) as (_ & Hslash & _).
  rewrite (path_join_relative _ _ _ Hslash (generated_folder_last E)) by discriminate.
  apply lookup_insert_eq.
Qed.

Lemma fetch_after_upload_witness :
  let reply := jlit "[{'subject': 'Alice', 'predicate': 'knows', 'object': 'Bob'}]" in
  let E := env_replying reply in
  exists name G,
    lit "/generated/00.png" = lit "/generated/" ++ name
    /\ serve_static E name
         (snd (upload_pdf E (request_with "paper.pdf" (lit "Alice knows Bob.")) world0))
       = SendFile (GENERATED_FOLDER E ++ SLASH :: name) (FileImage (draw G)).
Proof.
  intros reply E.
  apply (fetch_after_upload E (request_with "paper.pdf" (lit "Alice knows Bob.")) world0
           (snd (upload_pdf E (request_with "paper.pdf" (lit "Alice knows Bob.")) world0))
           (lit "/generated/00.png")).
  - reflexivity.
  - reflexivity.
  - vm_compute. reflexivity.
Defined.

Section Normpath.
Implicit Types (comps acc clean : list pystr) (s : pystr).

Lemma split_on_parts sep s : Forall (fun c => ~ In sep c) (split_on sep s).
Proof.
  induction s as [|c s IH]; cbn [split_on].
  - constructor; [intros []|constructor].
  - destruct (N.eqb c sep) eqn:Hc.
    + constructor; [intros []|exact IH].
    + destruct (split_on sep s) as [|part parts].
      * constructor; [|constructor]. intros [->|[]].
        now rewrite N.eqb_refl in Hc.
      * inversion IH as [|? ? Hpart Hparts]; subst. constructor; [|exact Hparts].
        intros [->|Hin]; [now rewrite N.eqb_refl in Hc|now apply Hpart].
Qed.

Lemma split_on_app sep a b :
  ~ In sep a -> split_on sep (a ++ sep :: b) = a :: split_on sep b.
Proof.
  induction a as [|c a IH]; intros Hno; cbn [app split_on].
  - now rewrite N.eqb_refl.
  - destruct (N.eqb c sep) eqn:Hc.
    + apply N.eqb_eq in Hc. subst c. exfalso. apply Hno. now left.
    + rewrite IH; [reflexivity|]. intros Hin. apply Hno. now right.
Qed.

Lemma last_repeat_dotdot k clean :
  Forall clean_comp clean ->
  last (repeat dotdot k ++ clean) = Some dotdot -> clean = [].
Proof.
  intros Hclean Hl. destruct clean as [|x clean _] using rev_ind; [reflexivity|].
  rewrite app_assoc, last_snoc in Hl. injection Hl as ->.
  apply Forall_app in Hclean as [_ Hx]. inversion Hx as [|? ? [Hdd _] _]; subst.
  congruence.
Qed.

Lemma repeat_snoc {A} (x : A) k : repeat x k ++ [x] = repeat x (S k).
Proof. induction k as [|k IH]; [reflexivity|]. cbn. now rewrite IH. Qed.

(** [normpath] keeps the components in the shape: some [..] first (none
    when the path is rooted), then components that are not [..]. *)
Lemma norm_step_shape rooted k clean comp :
  Forall clean_comp clean ->
  (rooted = true -> k = 0%nat) ->
  ~ In SLASH comp ->
  exists k' clean',
    norm_step rooted (repeat dotdot k ++ clean) comp = repeat dotdot k' ++ clean'
    /\ Forall clean_comp clean'
    /\ (rooted = true -> k' = 0%nat)
    /\ (k <= k')%nat.
Proof.
  intros Hclean Hroot Hno. unfold norm_step.
  destruct (bool_decide (comp = []) || bool_decide (comp = dot)).
  { exists k, clean. auto. }
  destruct (bool_decide (comp = dotdot)) eqn:Hdd; cbn [negb orb].
  2:{ apply bool_decide_eq_false in Hdd.
      exists k, (clean ++ [comp]). rewrite app_assoc.
      repeat split; auto. apply Forall_app. split; [exact Hclean|].
      constructor; [split; assumption|constructor]. }
  apply bool_decide_eq_true in Hdd. subst comp.
  destruct (bool_decide (repeat dotdot k ++ clean = [])) eqn:Hnil.
  - apply bool_decide_eq_true in Hnil.
    apply app_eq_nil in Hnil as [Hk ->]. destruct k; [|discriminate Hk].
    cbn [repeat app negb andb orb]. destruct rooted.
    + exists 0%nat, []. cbn. auto.
    + exists 1%nat, []. cbn. repeat split; auto. discriminate.
  - cbn [negb andb]. rewrite andb_false_r. cbn [orb].
    destruct (bool_decide (last (repeat dotdot k ++ clean) = Some dotdot)) eqn:Hlast.
    + apply bool_decide_eq_true in Hlast.
      pose proof (last_repeat_dotdot _ _ Hclean Hlast) as ->.
      rewrite app_nil_r in *. exists (S k), [].
      rewrite repeat_snoc, app_nil_r. repeat split; auto.
      intros Hr. specialize (Hroot Hr). subst k.
      apply bool_decide_eq_false in Hnil. now destruct Hnil.
    + apply bool_decide_eq_false in Hlast.
      destruct clean as [|x clean _] using rev_ind.
      * exfalso. rewrite app_nil_r in *. destruct k.
        -- apply bool_decide_eq_false in Hnil. now apply Hnil.
        -- apply Hlast. rewrite <- repeat_snoc. apply last_snoc.
      * exists k, clean. rewrite app_assoc, removelast_last.
        apply Forall_app in Hclean as [Hclean _]. auto.
Qed.

Lemma norm_fold_shape rooted comps k clean :
  Forall clean_comp clean ->
  (rooted = true -> k = 0%nat) ->
  Forall (fun c => ~ In SLASH c) comps ->
  exists k' clean',
    foldl (norm_step rooted) (repeat dotdot k ++ clean) comps
    = repeat dotdot k' ++ clean'
    /\ Forall clean_comp clean'
    /\ (rooted = true -> k' = 0%nat)
    /\ (k <= k')%nat.
Proof.
  intros Hclean Hroot Hcomps. revert k clean Hclean Hroot.
  induction Hcomps as [|comp comps Hno _ IH]; intros k clean Hclean Hroot.
  - exists k, clean. auto.
  - cbn [foldl].
    destruct (norm_step_shape rooted k clean comp Hclean Hroot Hno)
      as (k1 & clean1 & -> & Hclean1 & Hroot1 & Hle1).
    destruct (IH k1 clean1 Hclean1 Hroot1) as (k2 & clean2 & Heq & Hclean2 & Hroot2 & Hle2).
    exists k2, clean2. repeat split; auto. lia.
Qed.

(** Joined components that begin with [..] are [..] itself or begin
    with [../]. *)
Lemma str_join_dotdot k clean :
  let p := str_join [SLASH] (repeat dotdot (S k) ++ clean) in
  p = dotdot \/ startswith (lit "../") p = true.
Proof.
  cbn [repeat app]. destruct (repeat dotdot k ++ clean) as [|x rest].
  - left. reflexivity.
  - right. reflexivity.
Qed.

End Normpath.

Lemma classic_dotdot_prefix (path : pystr) :
  (exists rest, path = lit "../" ++ rest) \/ ~ (exists rest, path = lit "../" ++ rest).
Proof.
  destruct (startswith (lit "../") path) eqn:Hs.
  - left. change (lit "../") with [46%N; 46%N; 47%N] in *.
    destruct path as [|a [|b [|c rest]]]; cbn [startswith] in Hs;
      rewrite ?andb_false_r in Hs; try discriminate Hs.
    apply andb_prop in Hs as [Ha Hs]. apply andb_prop in Hs as [Hb Hs].
    apply andb_prop in Hs as [Hc _].
    apply N.eqb_eq in Ha, Hb, Hc. subst a b c. now exists rest.
  - right. intros [rest ->]. vm_compute in Hs. discriminate Hs.
Qed.

Section SafeJoin.
Implicit Types (E : env) (w : world) (filename rel : pystr).

Lemma normpath_nonempty filename :
  filename <> [] ->
  normpath filename
  = match repeat SLASH (initial_slashes filename)
          ++ str_join [SLASH]
               (foldl (norm_step (negb (Nat.eqb (initial_slashes filename) 0))) []
                      (split_on SLASH filename)) with
    | [] => dot
    | p => p
    end.
Proof. destruct filename; [congruence|reflexivity]. Qed.

Lemma normpath_shape filename :
  filename <> [] ->
  exists k clean,
    Forall clean_comp clean
    /\ (initial_slashes filename <> 0%nat -> k = 0%nat)
    /\ (forall rest, filename = lit "../" ++ rest -> (1 <= k)%nat)
    /\ normpath filename
       = match repeat SLASH (initial_slashes filename)
               ++ str_join [SLASH] (repeat dotdot k ++ clean) with
         | [] => dot
         | p => p
         end.
Proof.
  intros Hne. rewrite (normpath_nonempty _ Hne).
  destruct (classic_dotdot_prefix filename) as [(rest & ->)|Hnot].
  - change (initial_slashes (lit "../" ++ rest)) with 0%nat.
    change (lit "../" ++ rest) with (dotdot ++ SLASH :: rest).
    rewrite split_on_app
      by (unfold SLASH; cbn; intros [H|[H|[]]]; discriminate H).
    cbn [foldl Nat.eqb negb].
    change (norm_step false [] dotdot) with (repeat dotdot 1 ++ []).
    destruct (norm_fold_shape false (split_on SLASH rest) 1 [])
      as (k & clean & -> & Hclean & Hk & Hle).
    + constructor.
    + discriminate.
    + apply split_on_parts.
    + exists k, clean. repeat split; auto; congruence.
  - destruct (norm_fold_shape (negb (Nat.eqb (initial_slashes filename) 0))
                (split_on SLASH filename) 0 [])
      as (k & clean & Heq & Hclean & Hk & _).
    + constructor.
    + reflexivity.
    + apply split_on_parts.
    + cbn [repeat app] in Heq. rewrite Heq.
      exists k, clean. repeat split; auto.
      * intros Hn. apply Hk. destruct (initial_slashes filename); [congruence|reflexivity].
      * intros rest Hrest. exfalso. apply Hnot. now exists rest.
Qed.

Lemma initial_slashes_rooted filename :
  initial_slashes filename <> 0%nat ->
  exists tl, repeat SLASH (initial_slashes filename) = SLASH :: tl.
Proof.
  destruct (initial_slashes filename) as [|n]; [congruence|]. intros _.
  now exists (repeat SLASH n).
Qed.

Lemma safe_join_absolute directory rest : safe_join directory (SLASH :: rest) = None.
Proof.
  unfold safe_join.
  destruct (normpath_shape (SLASH :: rest)) as (k & clean & _ & _ & _ & ->);
    [discriminate|].
  destruct (initial_slashes_rooted (SLASH :: rest)) as [tl ->].
  { unfold initial_slashes. change (startswith [SLASH] (SLASH :: rest)) with true.
    cbv iota. now destruct (_ && _). }
  reflexivity.
Qed.

Lemma safe_join_dotdot directory rest : safe_join directory (lit "../" ++ rest) = None.
Proof.
  unfold safe_join.
  destruct (normpath_shape (lit "../" ++ rest)) as (k & clean & _ & _ & Hk & Hnorm);
    [discriminate|].
  specialize (Hk rest eq_refl).
  change (initial_slashes (lit "../" ++ rest)) with 0%nat in Hnorm.
  cbn [repeat app] in Hnorm.
  destruct k as [|k]; [lia|].
  change (match lit "../" ++ rest with [] => [] | _ :: _ => normpath (lit "../" ++ rest) end)
    with (normpath (lit "../" ++ rest)).
  rewrite Hnorm.
  destruct (str_join_dotdot k clean) as [Hp|Hp]; cbv zeta in Hp.
  - rewrite Hp. reflexivity.
  - destruct (str_join [SLASH] (repeat dotdot (S k) ++ clean)) as [|c p];
      [discriminate Hp|].
    rewrite Hp. now rewrite !orb_true_r.
Qed.

(** What [safe_join] lets through: a file name whose normal form is a
    sequence of components without [..], joined below the directory. *)
Lemma safe_join_accepts directory filename joined :
  directory <> [] ->
  safe_join directory filename = Some joined ->
  exists comps,
    Forall clean_comp comps
    /\ startswith [SLASH] (str_join [SLASH] comps) = false
    /\ joined = path_join directory (str_join [SLASH] comps).
Proof.
  intros Hdir. unfold safe_join.
  destruct directory as [|d ds]; [congruence|].
  destruct filename as [|c s].
  { cbn. intros [= <-]. exists []. split; [constructor|]. split; reflexivity. }
  set (filename := c :: s).
  destruct (normpath_shape filename) as (k & clean & Hclean & Hroot & _ & ->);
    [discriminate|].
  destruct (Nat.eq_dec (initial_slashes filename) 0%nat) as [Hn|Hn].
  2:{ destruct (initial_slashes_rooted filename Hn) as [tl ->]. discriminate. }
  rewrite Hn. cbn [repeat app].
  destruct k as [|k].
  - cbn [repeat app].
    destruct (str_join [SLASH] clean) as [|x p] eqn:Hp.
    + intros H. exists [dot]. split.
      * constructor; [|constructor]. split; [discriminate|].
        unfold dot, SLASH. cbn. intros [H1|[]]. discriminate H1.
      * split; [reflexivity|].
        change (str_join [SLASH] [dot]) with dot.
        destruct (_ || _); [discriminate H|]. now injection H as <-.
    + intros H. exists clean. split; [exact Hclean|]. rewrite Hp.
      destruct (startswith [SLASH] (x :: p)); [discriminate H|].
      split; [reflexivity|].
      destruct (_ || _); [discriminate H|]. now injection H as <-.
  - destruct (str_join_dotdot k clean) as [Hp|Hp]; cbv zeta in Hp.
    + rewrite Hp. discriminate.
    + destruct (str_join [SLASH] (repeat dotdot (S k) ++ clean)) as [|x p];
        [discriminate Hp|].
      rewrite Hp. rewrite !orb_true_r. discriminate.
Qed.

Lemma startswith_common_prefix (pre a b : pystr) :
  startswith (pre ++ a) (pre ++ b) = startswith a b.
Proof.
  induction pre as [|x pre IH]; [reflexivity|].
  cbn [app startswith]. now rewrite N.eqb_refl, IH.
Qed.

End SafeJoin.

(** X11. Whatever file name is asked for, a file that [serve_static]
    sends lies below the generated folder, at a path whose components
    after the folder are free of [..]; it never lies below the upload
    folder; and it is a file of the current world. *)
Theorem serve_static_stays_in_folder (E : env) (filename : pystr) (w : world)
    (path : pystr) (f : file) :
  startswith [SLASH] (BASE_DIR E) = true ->
  serve_static E filename w = SendFile path f ->
  (exists comps, Forall clean_comp comps
                 /\ path = GENERATED_FOLDER E ++ SLASH :: str_join [SLASH] comps)
  /\ startswith (UPLOAD_FOLDER E ++ [SLASH]) path = false
  /\ fs w !! path = Some f.
Proof.
  intros Habs. unfold serve_static, send_from_directory.
  destruct (safe_join (GENERATED_FOLDER E) filename) as [joined|] eqn:Hjoin;
    [|discriminate].
  destruct (safe_join_accepts _ _ _ (generated_folder_nonempty E) Hjoin)
    as (comps & Hclean & Hrel & ->).
  rewrite (served_path E _ Habs Hrel).
  unfold os_isfile. destruct (_ || _); [discriminate|].
  destruct (fs w !! _) as [f'|] eqn:Hfile; [|discriminate].
  intros [= <- <-]. split; [eauto|]. split; [|exact Hfile].
  destruct (folders_shape E) as (pre & -> & ->).
  rewrite <- !app_assoc, startswith_common_prefix. reflexivity.
Qed.

Lemma serve_static_stays_in_folder_witness :
  let E := env_replying (lit "[]") in
  let image := FileImage empty_figure in
  let w := mkWorld {[ lit "/app/generated/00.png" := image;
                      lit "/app/uploads/0.pdf" := FileUpload (lit "secret") ]} [] 2 [] in
  (exists comps, Forall clean_comp comps
                 /\ lit "/app/generated/00.png"
                    = GENERATED_FOLDER E ++ SLASH :: str_join [SLASH] comps)
  /\ startswith (UPLOAD_FOLDER E ++ [SLASH]) (lit "/app/generated/00.png") = false
  /\ fs w !! lit "/app/generated/00.png" = Some image.
Proof.
  intros E image w.
  apply (serve_static_stays_in_folder E (lit "a/../00.png") w
           (lit "/app/generated/00.png") image).
  - reflexivity.
  - vm_compute. reflexivity.
Defined.

(** X12. A file name that begins with [../], that is absolute, or
    that is [..] is answered with 404, whatever files exist, even when
    the path would lead back into the generated folder. *)
Theorem serve_static_refuses_traversal (E : env) (rest : pystr) (w : world) :
  serve_static E (lit "../" ++ rest) w = NotFound
  /\ serve_static E (SLASH :: rest) w = NotFound
  /\ serve_static E dotdot w = NotFound.
Proof.
  unfold serve_static, send_from_directory.
  rewrite safe_join_dotdot, safe_join_absolute.
  split; [reflexivity|]. split; reflexivity.
Qed.

(** ** More on the graph builder *)

Section GraphInvariants.
Implicit Types (G : DiGraph) (n u v : node) (x p : pyvalue).

Lemma as_node_truthy x n : truthy x = true -> as_node x = Ok n -> node_ok n.
Proof.
  unfold as_node, node_ok.
  destruct x as [|b|z|f|s|l|d]; cbn; try discriminate.
  - destruct b; [|discriminate]. intros _ [= <-]. repeat split; discriminate.
  - intros Hz [= <-]. repeat split; try discriminate.
    intros [= ->]. discriminate Hz.
  - destruct f as [s|s| |s m e]; cbn; try discriminate.
    + intros _ [= <-]. repeat split; discriminate.
    + intros _ [= <-]. repeat split; discriminate.
    + intros _. destruct (odd_mantissa m e) as [m' e'].
      destruct (Z.leb 0 e') eqn:He; cbn.
      * apply Z.leb_le in He.
        assert (Hpos : 0 < Z.pos m' * 2 ^ e').
        { apply Z.mul_pos_pos; [lia|]. apply Z.pow_pos_nonneg; lia. }
        intros [= <-]. repeat split; try discriminate.
        intros [= Hz]. destruct s; lia.
      * intros [= <-]. repeat split; discriminate.
  - destruct s; [discriminate|]. intros _ [= <-]. repeat split; discriminate.
Qed.

Lemma add_edge_ok G x p y G' :
  graph_ok G -> all_truthy x p y = true ->
  add_edge G x y {["label" := p]} = Ok G' -> graph_ok G'.
Proof.
  intros [Hedges Hnodes] Hall. unfold all_truthy in Hall.
  apply andb_prop in Hall as [Hall Hy]. apply andb_prop in Hall as [Hx Hp].
  unfold add_edge.
  destruct (as_node x) as [u|] eqn:Hu; [|discriminate].
  destruct (as_node y) as [v|] eqn:Hv; [|discriminate].
  intros [= <-]. unfold add_edge_nodes. split; cbn [G_nodes G_adj].
  - intros a b d Hd. destruct (decide ((u, v) = (a, b))) as [[= <- <-]|Hne].
    + rewrite lookup_insert_eq in Hd. injection Hd as <-.
      split; [apply elem_of_union; left; now apply elem_of_singleton|].
      split; [apply elem_of_union; right; apply elem_of_union; left;
              now apply elem_of_singleton|].
      exists p. split; [|exact Hp].
      destruct (G_adj G !! (u, v)) as [d|] eqn:Hold; cbn.
      * destruct (Hedges _ _ _ Hold) as (_ & _ & q & -> & _). apply label_union.
      * apply (right_id _ _).
    + rewrite lookup_insert_ne in Hd by exact Hne.
      destruct (Hedges _ _ _ Hd) as (Ha & Hb & Hlab).
      split; [do 2 (apply elem_of_union; right); exact Ha|].
      split; [do 2 (apply elem_of_union; right); exact Hb|]. exact Hlab.
  - intros n Hn.
    assert (Hnew : is_Some (<[(u, v) := ({["label" := p]} : gmap string pyvalue)
                                        ∪ default ∅ (G_adj G !! (u, v))]> (G_adj G) !! (u, v))).
    { rewrite lookup_insert_eq. eauto. }
    apply elem_of_union in Hn as [Hn|Hn]; [|apply elem_of_union in Hn as [Hn|Hn]].
    + apply elem_of_singleton in Hn. subst n. split.
      * exact (as_node_truthy _ _ Hx Hu).
      * exists v. left. exact Hnew.
    + apply elem_of_singleton in Hn. subst n. split.
      * exact (as_node_truthy _ _ Hy Hv).
      * exists u. right. exact Hnew.
    + destruct (Hnodes n Hn) as [Hok (m & Hm)]. split; [exact Hok|].
      exists m. destruct Hm as [Hm|Hm]; [left|right].
      * apply lookup_insert_is_Some. destruct (decide ((u, v) = (n, m))); auto.
      * apply lookup_insert_is_Some. destruct (decide ((u, v) = (m, n))); auto.
Qed.

Lemma graph_loop_ok (triples : list pyvalue) G G' :
  graph_ok G -> graph_loop G triples = Ok G' -> graph_ok G'.
Proof.
  revert G. induction triples as [|t rest IH]; intros G Hok; cbn [graph_loop].
  - now intros [= <-].
  - destruct (py_get t (lit "subject")) as [x|]; [|discriminate].
    destruct (py_get t (lit "predicate")) as [p|]; [|discriminate].
    destruct (py_get t (lit "object")) as [y|]; [|discriminate].
    destruct (all_truthy x p y) eqn:Hall; [|now apply IH].
    destruct (add_edge G x y {["label" := p]}) as [G1|] eqn:Hadd; [|discriminate].
    apply IH. exact (add_edge_ok _ _ _ _ _ Hok Hall Hadd).
Qed.

Lemma empty_graph_ok : graph_ok empty_graph.
Proof.
  split; cbn.
  - intros u v d Hd. rewrite lookup_empty in Hd. discriminate Hd.
  - intros n Hn. now apply not_elem_of_empty in Hn.
Qed.

End GraphInvariants.

(** X15. Every graph the builder returns is well formed, for any
    input: each edge joins two nodes of the graph and carries exactly one
    attribute, a truthy label; each node is an end of some edge (no
    isolated nodes) and stands for a truthy value (never [None], the
    empty string or zero). *)
Theorem built_graph_is_well_formed (triples : pyvalue) (G : DiGraph) :
  build_graph triples = Ok G -> graph_ok G.
Proof.
  unfold build_graph. destruct (py_iter triples) as [items|]; [|discriminate].
  apply graph_loop_ok, empty_graph_ok.
Qed.

Lemma built_graph_is_well_formed_witness :
  exists G,
    build_graph (PyList [triple "Alice" "knows" "Bob"; triple "Bob" "" "Carol";
                         PyDict [(lit "subject", PyInt 1); (lit "predicate", PyBool true);
                                 (lit "object", PyStr (lit "Alice"))]]) = Ok G
    /\ graph_ok G.
Proof.
  eexists. split; [reflexivity|].
  apply (built_graph_is_well_formed
           (PyList [triple "Alice" "knows" "Bob"; triple "Bob" "" "Carol";
                    PyDict [(lit "subject", PyInt 1); (lit "predicate", PyBool true);
                            (lit "object", PyStr (lit "Alice"))]])).
  reflexivity.
Defined.

Section GraphEdges.
Implicit Types (G : DiGraph) (t x : pyvalue) (triples before after : list pyvalue).

(** The loop over a list that begins with triples. *)
Lemma graph_loop_prefix before after G :
  forallb is_triple before = true ->
  graph_loop G (before ++ after)
  = graph_loop (foldl add_labelled G (omap edge_of before)) after.
Proof.
  intros Hall.
  revert G. induction before as [|t rest IH]; intros G; [reflexivity|].
  cbn [forallb] in Hall. apply andb_prop in Hall as [Ht Hall].
  assert (Hone : graph_loop G [t] = Ok (foldl add_labelled G (omap edge_of [t]))).
  { apply graph_loop_edges. cbn [forallb]. now rewrite Ht. }
  change ((t :: rest) ++ after) with (t :: (rest ++ after)).
  cbn [graph_loop] in Hone |- *.
  destruct (py_get t (lit "subject")) as [subj|]; [|discriminate Hone].
  destruct (py_get t (lit "predicate")) as [pred|]; [|discriminate Hone].
  destruct (py_get t (lit "object")) as [obj|]; [|discriminate Hone].
  cbn [omap list_omap] in Hone |- *.
  destruct (all_truthy subj pred obj).
  - destruct (add_edge G subj obj {["label" := pred]}) as [G1|]; [|discriminate Hone].
    injection Hone as ->.
    rewrite (IH Hall).
    destruct (edge_of t); reflexivity.
  - injection Hone as Hone.
    rewrite (IH Hall).
    destruct (edge_of t) as [e|]; cbn [foldl] in Hone |- *; [|reflexivity].
    now rewrite <- Hone.
Qed.

End GraphEdges.

(** X13. An element that is no object stops the graph builder with
    [AttributeError] when it is reached, whatever follows it; the triples
    before it do not matter. *)
Theorem graph_rejects_non_object (before after : list pyvalue) (x : pyvalue) :
  forallb is_triple before = true ->
  is_dict x = false ->
  build_graph (PyList (before ++ x :: after)) = Raise AttributeError.
Proof.
  intros Hall Hx. cbn [build_graph py_iter].
  rewrite (graph_loop_prefix _ _ _ Hall). cbn [graph_loop].
  destruct x; try reflexivity. discriminate Hx.
Qed.

Lemma graph_rejects_non_object_witness :
  build_graph (PyList ([triple "Alice" "knows" "Bob"]
                       ++ PyList [PyStr (lit "Bob"); PyStr (lit "likes"); PyStr (lit "tea")]
                       :: [triple "Bob" "knows" "Carol"]))
  = Raise AttributeError.
Proof.
  apply (graph_rejects_non_object [triple "Alice" "knows" "Bob"]
           [triple "Bob" "knows" "Carol"]
           (PyList [PyStr (lit "Bob"); PyStr (lit "likes"); PyStr (lit "tea")])).
  - reflexivity.
  - reflexivity.
Defined.

(** X14. A fully populated triple whose subject or object is a list
    or an object stops the graph builder with [TypeError]: such a value
    cannot be a node. *)
Theorem graph_rejects_container_endpoint (before after : list pyvalue) (x : pyvalue) :
  forallb is_triple before = true ->
  is_dict x = true ->
  populated x = true ->
  scalar (field x "subject") && scalar (field x "object") = false ->
  build_graph (PyList (before ++ x :: after)) = Raise TypeError.
Proof.
  intros Hall Hd Hpop Hsc. cbn [build_graph py_iter].
  rewrite (graph_loop_prefix _ _ _ Hall). cbn [graph_loop].
  destruct x as [| | | | | |d]; try discriminate Hd.
  unfold populated in Hpop. cbn [field py_get] in *. rewrite Hpop.
  unfold all_truthy in Hpop.
  apply andb_prop in Hpop as [Hpop _]. apply andb_prop in Hpop as [Hsubj _].
  unfold add_edge.
  destruct (scalar (default PyNone (dict_get d (lit "subject")))) eqn:Hs.
  - destruct (truthy_scalar_node _ Hsubj Hs) as [u ->].
    cbn [andb] in Hsc.
    destruct (default PyNone (dict_get d (lit "object"))); try discriminate Hsc;
      reflexivity.
  - destruct (default PyNone (dict_get d (lit "subject"))); try discriminate Hs;
      reflexivity.
Qed.

Lemma graph_rejects_container_endpoint_witness :
  build_graph (PyList ([triple "Alice" "knows" "Bob"]
                       ++ PyDict [(lit "subject", PyList [PyStr (lit "Bob"); PyStr (lit "Carol")]);
                                  (lit "predicate", PyStr (lit "know"));
                                  (lit "object", PyStr (lit "Alice"))]
                       :: []))
  = Raise TypeError.
Proof.
  apply (graph_rejects_container_endpoint [triple "Alice" "knows" "Bob"] []
           (PyDict [(lit "subject", PyList [PyStr (lit "Bob"); PyStr (lit "Carol")]);
                    (lit "predicate", PyStr (lit "know"));
                    (lit "object", PyStr (lit "Alice"))])).
  - reflexivity.
  - reflexivity.
  - reflexivity.
  - reflexivity.
Defined.

Lemma forallb_is_triple_perm (l l' : list pyvalue) :
  l ≡ₚ l' -> forallb is_triple l = true -> forallb is_triple l' = true.
Proof.
  intros Hp. rewrite !forallb_forall. intros H t Hin. apply H.
  apply list_elem_of_In. apply list_elem_of_In in Hin. now rewrite Hp.
Qed.

Lemma edge_dom_char (triples : list pyvalue) (k : node * node) :
  k ∈ dom (G_adj (foldl add_labelled empty_graph (omap edge_of triples)))
  <-> exists p, (k.1, k.2, p) ∈ omap edge_of triples.
Proof.
  rewrite elem_of_dom, foldl_add_adj, fmap_is_Some, last_is_Some. split.
  - intros Hne. destruct (labels_for k (omap edge_of triples)) as [|p l] eqn:Hl;
      [congruence|].
    exists p. apply labels_for_elem. rewrite Hl. now left.
  - intros [p Hp] Hnil. apply labels_for_elem in Hp. rewrite Hnil in Hp.
    inversion Hp.
Qed.

(** X16. The order of the triples does not matter for the nodes and
    the edges of the graph: two lists that are permutations of each other
    give the same node set and the same edge set (only labels of edges
    that several triples claim depend on the order). *)
Theorem graph_nodes_and_edges_ignore_order (triples triples' : list pyvalue) :
  triples ≡ₚ triples' ->
  forallb is_triple triples = true ->
  exists G G',
    build_graph (PyList triples) = Ok G
    /\ build_graph (PyList triples') = Ok G'
    /\ G_nodes G = G_nodes G'
    /\ dom (G_adj G) = dom (G_adj G').
Proof.
  intros Hperm Hall.
  pose proof (forallb_is_triple_perm _ _ Hperm Hall) as Hall'.
  eexists. eexists.
  split; [exact (graph_loop_edges _ _ Hall)|].
  split; [exact (graph_loop_edges _ _ Hall')|].
  assert (Hes : forall e, e ∈ omap edge_of triples <-> e ∈ omap edge_of triples').
  { intros e. rewrite !list_elem_of_omap. now setoid_rewrite Hperm. }
  split.
  - apply set_eq. intros n. rewrite !foldl_add_nodes.
    split; (intros [Hn|(e & He & Hn)]; [left; exact Hn|right]);
      exists e; (split; [now apply Hes|exact Hn]).
  - apply set_eq. intros k. rewrite !edge_dom_char.
    split; intros [p Hp]; exists p; now apply Hes.
Qed.

Lemma graph_nodes_and_edges_ignore_order_witness :
  exists G G',
    build_graph (PyList [triple "A" "knows" "B"; triple "A" "likes" "B"]) = Ok G
    /\ build_graph (PyList [triple "A" "likes" "B"; triple "A" "knows" "B"]) = Ok G'
    /\ G_nodes G = G_nodes G'
    /\ dom (G_adj G) = dom (G_adj G').
Proof.
  apply (graph_nodes_and_edges_ignore_order
           [triple "A" "knows" "B"; triple "A" "likes" "B"]
           [triple "A" "likes" "B"; triple "A" "knows" "B"]).
  - apply perm_swap.
  - reflexivity.
Defined.

(** X17. More triples never take anything away: the graph of a list
    extended by further triples has all the nodes and all the edges of
    the graph of the list. *)
Theorem graph_only_grows (triples more : list pyvalue) :
  forallb is_triple (triples ++ more) = true ->
  exists G G',
    build_graph (PyList triples) = Ok G
    /\ build_graph (PyList (triples ++ more)) = Ok G'
    /\ G_nodes G ⊆ G_nodes G'
    /\ dom (G_adj G) ⊆ dom (G_adj G').
Proof.
  intros Hall.
  assert (Hall1 : forallb is_triple triples = true).
  { rewrite forallb_app in Hall. now apply andb_prop in Hall as [? _]. }
  eexists. eexists.
  split; [exact (graph_loop_edges _ _ Hall1)|].
  split; [exact (graph_loop_edges _ _ Hall)|].
  assert (Hes : forall e, e ∈ omap edge_of triples -> e ∈ omap edge_of (triples ++ more)).
  { intros e He. rewrite omap_app. apply elem_of_app. now left. }
  split.
  - intros n. rewrite !foldl_add_nodes.
    intros [Hn|(e & He & Hn)]; [left; exact Hn|right]. exists e. auto.
  - intros k. rewrite !edge_dom_char. intros [p Hp]. exists p. auto.
Qed.

Lemma graph_only_grows_witness :
  exists G G',
    build_graph (PyList [triple "A" "knows" "B"]) = Ok G
    /\ build_graph (PyList ([triple "A" "knows" "B"] ++ [triple "B" "knows" "C"])) = Ok G'
    /\ G_nodes G ⊆ G_nodes G'
    /\ dom (G_adj G) ⊆ dom (G_adj G').
Proof.
  apply (graph_only_grows [triple "A" "knows" "B"] [triple "B" "knows" "C"]).
  reflexivity.
Defined.

Lemma size_add_node (x : node) (X : gset node) :
  (size ({[x]} ∪ X) <= S (size X))%nat.
Proof.
  rewrite size_union_alt, size_singleton.
  assert (H : (size (X ∖ {[x]}) <= size X)%nat).
  { apply subseteq_size. intros y Hy. now apply elem_of_difference in Hy as [? _]. }
  lia.
Qed.

Lemma add_labelled_sizes (G : DiGraph) (e : node * node * pyvalue) :
  (size (G_nodes (add_labelled G e)) <= 2 + size (G_nodes G))%nat
  /\ (size (G_adj (add_labelled G e)) <= S (size (G_adj G)))%nat.
Proof.
  unfold add_labelled, add_edge_nodes. cbn [G_nodes G_adj]. split.
  - pose proof (size_add_node e.1.1 ({[e.1.2]} ∪ G_nodes G)).
    pose proof (size_add_node e.1.2 (G_nodes G)). lia.
  - rewrite map_size_insert. destruct (G_adj G !! _); cbn; lia.
Qed.

Lemma foldl_add_sizes (es : list (node * node * pyvalue)) (G : DiGraph) :
  (size (G_nodes (foldl add_labelled G es)) <= size (G_nodes G) + 2 * length es)%nat
  /\ (size (G_adj (foldl add_labelled G es)) <= size (G_adj G) + length es)%nat.
Proof.
  revert G. induction es as [|e es IH]; intros G; cbn [foldl length]; [lia|].
  destruct (IH (add_labelled G e)) as [Hn He].
  destruct (add_labelled_sizes G e) as [Hn' He']. split; lia.
Qed.

(** X18. A graph built from [n] triples has at most [2 * n] nodes and
    at most [n] edges. *)
Theorem graph_size_bounds (triples : list pyvalue) :
  forallb is_triple triples = true ->
  exists G,
    build_graph (PyList triples) = Ok G
    /\ (size (G_nodes G) <= 2 * length triples)%nat
    /\ (size (dom (G_adj G)) <= length triples)%nat.
Proof.
  intros Hall. eexists. split; [exact (graph_loop_edges _ _ Hall)|].
  destruct (foldl_add_sizes (omap edge_of triples) empty_graph) as [Hn He].
  cbn [G_nodes G_adj empty_graph] in Hn, He.
  rewrite size_empty in Hn. rewrite map_size_empty in He.
  assert (Hlen : (length (omap edge_of triples) <= length triples)%nat).
  { clear. induction triples as [|t l IH]; cbn; [lia|].
    destruct (edge_of t); cbn; lia. }
  rewrite size_dom. split; lia.
Qed.

Lemma graph_size_bounds_witness :
  exists G,
    build_graph (PyList [triple "A" "knows" "B"; triple "A" "likes" "B";
                         triple "B" "" "C"]) = Ok G
    /\ (size (G_nodes G) <= 2 * 3)%nat
    /\ (size (dom (G_adj G)) <= 3)%nat.
Proof.
  apply (graph_size_bounds [triple "A" "knows" "B"; triple "A" "likes" "B";
                            triple "B" "" "C"]).
  reflexivity.
Defined.

(** ** More on cleaning the reply *)

Section Cleaning.
Implicit Types (st : lstate) (c : N) (s tail ws : pystr) (ts : list token).

(** The pattern finds nothing inside a text the tokenizer accepts,
    whatever follows it. *)
Lemma re_sub_fence_through s tail st bol ts :
  wf_state st -> (bol = true -> st = LIdle) ->
  lex_run st s = Some ts ->
  re_sub_fence 0 bol (s ++ tail)
  = s ++ re_sub_fence 0 (match last s with Some c => N.eqb c NL | None => bol end) tail.
Proof.
  revert st bol ts. induction s as [|c s IH]; intros st bol ts Hwf Hbol Hrun.
  - reflexivity.
  - change ((c :: s) ++ tail) with (c :: (s ++ tail)).
    cbn [re_sub_fence].
    change (c :: (s ++ tail)) with ((c :: s) ++ tail).
    rewrite (fence_match_accepted _ _ _ _ _ _ Hwf Hbol Hrun).
    apply lex_run_cons in Hrun as (st' & ts1 & ts2 & Hstep & Hrun).
    cbn [app]. f_equal. rewrite (IH st' (N.eqb c NL) ts2).
    + rewrite last_cons. now destruct (last s).
    + exact (lstep_wf _ _ _ _ Hwf Hstep).
    + intros Hc. apply N.eqb_eq in Hc. subst c.
      exact (lstep_newline _ _ _ Hwf Hstep).
    + exact Hrun.
Qed.

Lemma re_sub_fence_closing (bol : bool) : re_sub_fence 0 bol ticks = [].
Proof. destruct bol; reflexivity. Qed.

Lemma lstrip_spaces ws s : forallb py_isspace ws = true -> lstrip (ws ++ s) = lstrip s.
Proof.
  induction ws as [|c ws IH]; [reflexivity|]. cbn [forallb app lstrip].
  intros H. apply andb_prop in H as [-> H]. now apply IH.
Qed.

Lemma rstrip_spaces ws s : forallb py_isspace ws = true -> rstrip (s ++ ws) = rstrip s.
Proof.
  induction ws as [|c ws IH] using rev_ind; intros H.
  - now rewrite app_nil_r.
  - rewrite forallb_app in H. apply andb_prop in H as [H Hc].
    cbn [forallb] in Hc. rewrite andb_true_r in Hc.
    rewrite app_assoc, rstrip_snoc, Hc. now apply IH.
Qed.

(** Stripping takes the whitespace off a text that begins and ends
    with other characters. *)
Lemma strip_wrapped ws1 ws2 c core c' :
  forallb py_isspace ws1 = true -> forallb py_isspace ws2 = true ->
  py_isspace c = false -> py_isspace c' = false ->
  strip (ws1 ++ (c :: core ++ [c']) ++ ws2) = c :: core ++ [c'].
Proof.
  intros H1 H2 Hc Hc'. unfold strip.
  rewrite (lstrip_spaces _ _ H1). cbn [app lstrip]. rewrite Hc.
  change (c :: (core ++ [c']) ++ ws2) with ((c :: core ++ [c']) ++ ws2).
  rewrite (rstrip_spaces _ _ H2).
  change (c :: core ++ [c']) with ((c :: core) ++ [c']).
  now rewrite rstrip_snoc, Hc'.
Qed.

Lemma lex_run_json_ws_cons c s : is_json_ws c = true -> lex_run LIdle (c :: s) = lex_run LIdle s.
Proof.
  intros Hc. cbn [lex_run lstep]. unfold lex_start. rewrite Hc.
  now destruct (lex_run LIdle s).
Qed.

Lemma lex_run_json_ws_snoc s st c ts :
  is_json_ws c = true -> lex_run st s = Some ts -> lex_run st (s ++ [c]) = Some ts.
Proof.
  intros Hc. assert (Hcases : c = 32%N \/ c = 9%N \/ c = 10%N \/ c = 13%N).
  { unfold is_json_ws in Hc.
    repeat (apply orb_prop in Hc as [Hc|Hc]); apply N.eqb_eq in Hc; auto. }
  clear Hc. revert st ts. induction s as [|a s IH]; intros st ts; cbn [app lex_run].
  - destruct st as [| | |ph n| | |]; try discriminate.
    + intros [= <-]. destruct Hcases as [->|[->|[->| ->]]]; reflexivity.
    + cbn [lfinish].
      destruct Hcases as [->|[->|[->| ->]]];
        destruct ph; cbn; try discriminate; intros [= <-]; reflexivity.
  - destruct (lstep st a) as [[st' ts1]|]; [|discriminate].
    destruct (lex_run st' s) as [ts2|] eqn:Hrun; [|discriminate].
    intros [= <-]. now rewrite (IH st' ts2 Hrun).
Qed.

(** JSON whitespace around a text does not change its tokens. *)
Lemma tokenize_json_ws sep1 sep2 s ts :
  forallb is_json_ws sep1 = true -> forallb is_json_ws sep2 = true ->
  tokenize s = Some ts -> tokenize (sep1 ++ s ++ sep2) = Some ts.
Proof.
  unfold tokenize. intros H1 H2 Hs.
  assert (Hright : lex_run LIdle (s ++ sep2) = Some ts).
  { clear H1. induction sep2 as [|c sep2 IH] using rev_ind.
    - now rewrite app_nil_r.
    - rewrite forallb_app in H2. apply andb_prop in H2 as [H2 Hc].
      cbn [forallb] in Hc. rewrite andb_true_r in Hc.
      rewrite app_assoc. apply lex_run_json_ws_snoc; auto. }
  clear H2. induction sep1 as [|c sep1 IH]; [exact Hright|].
  cbn [forallb] in H1. apply andb_prop in H1 as [Hc H1].
  cbn [app]. rewrite (lex_run_json_ws_cons _ _ Hc). now apply IH.
Qed.

Lemma tokenize_head_not_j c s ts : tokenize (c :: s) = Some ts -> c <> 106%N.
Proof.
  unfold tokenize. intros Hrun ->. discriminate Hrun.
Qed.

Lemma fence_match_other c s (bol : bool) : c <> BT -> fence_match bol (c :: s) = None.
Proof.
  intros Hc. unfold fence_match.
  assert (Hs : startswith ticks (c :: s) = false).
  { unfold ticks. cbn [startswith].
    replace (N.eqb BT c) with false; [reflexivity|].
    symmetry. apply N.eqb_neq. congruence. }
  rewrite Hs. now rewrite andb_false_r.
Qed.

Lemma re_sub_fence_no_ticks s (bol : bool) :
  ~ In BT s -> re_sub_fence 0 bol s = s.
Proof.
  revert bol. induction s as [|c s IH]; intros bol Hno; [reflexivity|].
  cbn [re_sub_fence]. rewrite fence_match_other.
  - f_equal. apply IH. intros Hin. apply Hno. now right.
  - intros ->. apply Hno. now left.
Qed.

Lemma lstrip_id s c : py_isspace c = false -> lstrip (c :: s) = c :: s.
Proof. intros H. cbn [lstrip]. now rewrite H. Qed.

Lemma lstrip_idem s : lstrip (lstrip s) = lstrip s.
Proof.
  induction s as [|c s IH]; [reflexivity|]. cbn [lstrip].
  destruct (py_isspace c) eqn:Hc; [exact IH|]. cbn [lstrip]. now rewrite Hc.
Qed.

Lemma rstrip_idem s : rstrip (rstrip s) = rstrip s.
Proof. unfold rstrip. now rewrite rev_involutive, lstrip_idem. Qed.

(** Stripping on the right keeps a first character that is no
    whitespace. *)
Lemma rstrip_head c s :
  py_isspace c = false -> exists s', rstrip (c :: s) = c :: s'.
Proof.
  intros Hc. induction s as [|x s IH] using rev_ind.
  - exists []. change [c] with ([] ++ [c]). now rewrite rstrip_snoc, Hc.
  - change (c :: s ++ [x]) with ((c :: s) ++ [x]). rewrite rstrip_snoc.
    destruct (py_isspace x); [exact IH|]. now exists (s ++ [x]).
Qed.

Lemma strip_idem s : strip (strip s) = strip s.
Proof.
  unfold strip at 1.
  assert (Hl : lstrip (strip s) = strip s).
  { unfold strip. destruct (lstrip s) as [|c s'] eqn:Hs; [reflexivity|].
    assert (Hc : py_isspace c = false).
    { clear -Hs. induction s as [|x s IH]; [discriminate|].
      cbn [lstrip] in Hs. destruct (py_isspace x) eqn:Hx; [now apply IH|].
      now injection Hs as <- _. }
    destruct (rstrip_head c s' Hc) as [s'' ->]. now apply lstrip_id. }
  rewrite Hl. unfold strip. apply rstrip_idem.
Qed.

Lemma lstrip_In c s : In c (lstrip s) -> In c s.
Proof.
  induction s as [|x s IH]; [auto|]. cbn [lstrip].
  destruct (py_isspace x); [|auto]. intros H. right. now apply IH.
Qed.

Lemma strip_In c s : In c (strip s) -> In c s.
Proof.
  unfold strip, rstrip. intros H.
  apply in_rev, lstrip_In in H. apply in_rev in H. now apply lstrip_In.
Qed.

Lemma re_sub_fence_plain_opening (X : pystr) :
  startswith (lit "json") X = false ->
  re_sub_fence 0 true (ticks ++ X) = re_sub_fence 0 false X.
Proof.
  intros HX.
  assert (Hm : fence_match true (BT :: BT :: BT :: X) = Some 3%nat).
  { unfold fence_match.
    change (startswith ticks (BT :: BT :: BT :: X)) with true.
    change (drop 3 (BT :: BT :: BT :: X)) with X. now rewrite HX. }
  change (ticks ++ X) with (BT :: BT :: BT :: X).
  cbn [re_sub_fence]. rewrite Hm. reflexivity.
Qed.

Lemma re_sub_fence_json_opening (X : pystr) :
  re_sub_fence 0 true (ticks ++ lit "json" ++ X) = re_sub_fence 0 false X.
Proof. reflexivity. Qed.

Lemma accepted_not_json_tag s tail ts :
  tokenize s = Some ts -> startswith (lit "json") (s ++ tail) = false
                          \/ s = [].
Proof.
  intros Hs. destruct s as [|c s]; [now right|]. left.
  pose proof (tokenize_head_not_j _ _ _ Hs) as Hc.
  change (lit "json") with [106%N; 115%N; 111%N; 110%N]. cbn [app startswith].
  replace (N.eqb 106 c) with false; [reflexivity|].
  symmetry. apply N.eqb_neq. congruence.
Qed.

End Cleaning.

(** X19. The cleaning step copes with the usual ways a model wraps
    its JSON: a fence with or without the [json] tag, with or without
    line breaks or blanks between the fences and the JSON, and with any
    whitespace around the whole reply. The result parses to the value the
    bare JSON parses to. *)
Theorem fence_variants_parse_alike (A ws1 ws2 sep1 sep2 tag : pystr) (v : pyvalue) :
  Json.loads A = Ok v ->
  forallb py_isspace ws1 = true ->
  forallb py_isspace ws2 = true ->
  forallb is_json_ws sep1 = true ->
  forallb is_json_ws sep2 = true ->
  tag = [] \/ tag = lit "json" ->
  Json.loads (cleaned_of (raw_of
    (ws1 ++ (ticks ++ tag ++ sep1 ++ A ++ sep2 ++ ticks) ++ ws2))) = Ok v.
Proof.
  intros Hload Hws1 Hws2 Hsep1 Hsep2 Htag.
  apply loads_tokens in Hload as (ts & Htok & Hparse).
  pose proof (tokenize_json_ws sep1 sep2 A ts Hsep1 Hsep2 Htok) as Hinner.
  set (inner := sep1 ++ A ++ sep2) in *.
  assert (Hshape : ticks ++ tag ++ sep1 ++ A ++ sep2 ++ ticks
                   = BT :: ([BT; BT] ++ tag ++ inner ++ [BT; BT]) ++ [BT]).
  { unfold inner, ticks. cbn [app]. do 3 f_equal.
    rewrite <- !app_assoc. reflexivity. }
  unfold raw_of. rewrite Hshape.
  rewrite (strip_wrapped ws1 ws2 BT _ BT Hws1 Hws2 eq_refl eq_refl).
  rewrite <- Hshape. clear Hshape. unfold cleaned_of.
  assert (Hsub : re_sub_fence 0 true (ticks ++ tag ++ sep1 ++ A ++ sep2 ++ ticks)
                 = inner).
  { replace (sep1 ++ A ++ sep2 ++ ticks) with (inner ++ ticks)
      by (unfold inner; now rewrite <- !app_assoc).
    assert (Hrest : re_sub_fence 0 false (inner ++ ticks) = inner).
    { rewrite (re_sub_fence_through inner ticks LIdle false ts I
                 (fun H => False_ind _ (Bool.diff_false_true H)) Hinner).
      now rewrite re_sub_fence_closing, app_nil_r. }
    destruct Htag as [-> | ->].
    - cbn [app]. destruct (accepted_not_json_tag inner ticks ts Hinner) as [Hj|Hnil].
      + now rewrite (re_sub_fence_plain_opening _ Hj).
      + rewrite Hnil. reflexivity.
    - now rewrite re_sub_fence_json_opening. }
  rewrite Hsub. apply loads_strip, loads_tokens. eauto.
Qed.

Lemma fence_variants_parse_alike_witness :
  Json.loads (cleaned_of (raw_of
    (lit "  " ++ (ticks ++ [] ++ [NL] ++ jlit "[{'subject': 'A', 'predicate': 'p', 'object': 'B'}]"
                 ++ [NL; 32%N] ++ ticks) ++ [NL; NL])))
  = Ok (PyList [triple "A" "p" "B"]).
Proof.
  apply (fence_variants_parse_alike
           (jlit "[{'subject': 'A', 'predicate': 'p', 'object': 'B'}]")
           (lit "  ") [NL; NL] [NL] [NL; 32%N] [] (PyList [triple "A" "p" "B"])).
  - reflexivity.
  - reflexivity.
  - reflexivity.
  - reflexivity.
  - reflexivity.
  - now left.
Defined.

(** X20. A reply that is valid JSON on its own goes through the
    cleaning step unharmed, backticks inside its strings included: the
    extractor returns the value [json.loads] gives for the reply. *)
Theorem bare_reply_is_parsed (E : env) (text reply : pystr) (w : world) (v : pyvalue) :
  model_reply E (length (prompts w)) (prompt_of text) = Ok reply ->
  Json.loads reply = Ok v ->
  extract_knowledge_triples E text w =
    (Ok v, mkWorld (fs w) (stdout w) (uuid_count w) (prompts w ++ [prompt_of text])).
Proof.
  intros Hreply Hload.
  rewrite (extract_unfold _ _ _ _ Hreply).
  apply loads_tokens in Hload as (ts & Htok & Hparse).
  assert (Hraw : tokenize (raw_of reply) = Some ts) by now apply tokenize_strip.
  assert (Hclean : Json.loads (cleaned_of (raw_of reply)) = Ok v).
  { unfold cleaned_of.
    pose proof (re_sub_fence_through (raw_of reply) [] LIdle true ts I
                  (fun _ => eq_refl) Hraw) as Hsub.
    cbn [re_sub_fence] in Hsub. rewrite !app_nil_r in Hsub. rewrite Hsub.
    apply loads_tokens. exists ts. split; [now apply tokenize_strip|exact Hparse]. }
  rewrite Hclean. reflexivity.
Qed.

Lemma bare_reply_is_parsed_witness :
  extract_knowledge_triples
    (env_replying (NL :: jlit "[{'subject': 'A', 'predicate': 'p``` ', 'object': 'B'}]" ++ [NL]))
    (lit "some text") world0
  = (Ok (PyList [triple "A" "p``` " "B"]),
     mkWorld ∅ [] 0 [prompt_of (lit "some text")]).
Proof.
  apply (bare_reply_is_parsed
           (env_replying (NL :: jlit "[{'subject': 'A', 'predicate': 'p``` ', 'object': 'B'}]" ++ [NL]))
           (lit "some text")
           (NL :: jlit "[{'subject': 'A', 'predicate': 'p``` ', 'object': 'B'}]" ++ [NL])
           world0 (PyList [triple "A" "p``` " "B"])).
  - reflexivity.
  - reflexivity.
Defined.

(** X21. A reply without any backtick reaches the parser with only
    its surrounding whitespace removed. *)
Theorem reply_without_backtick_is_only_stripped (reply : pystr) :
  ~ In BT reply -> cleaned_of (raw_of reply) = strip reply.
Proof.
  intros Hno. unfold cleaned_of, raw_of.
  rewrite re_sub_fence_no_ticks.
  - apply strip_idem.
  - intros Hin. apply Hno. now apply strip_In.
Qed.

Lemma reply_without_backtick_is_only_stripped_witness :
  cleaned_of (raw_of (lit "  Here are the triples: [] ")) = lit "Here are the triples: []".
Proof.
  rewrite (reply_without_backtick_is_only_stripped (lit "  Here are the triples: [] ")).
  - reflexivity.
  - vm_compute. intuition discriminate.
Defined.



(** ** Across requests *)

(** A request leaves every path alone but the two it may write. *)
Lemma upload_frame (E : env) (req : request) (w : world) (p : pystr) :
  p <> pdf_path_of E w ->
  p <> path_join (GENERATED_FOLDER E) (uuid4_hex E (S (uuid_count w)) ++ lit ".png") ->
  fs (snd (upload_pdf E req w)) !! p = fs w !! p.
Proof.
  intros Hpdf Himg. rewrite upload_cases.
  destruct (files req !! lit "pdf") as [f|]; [|reflexivity].
  destruct (has_file (Some f)); [|reflexivity].
  assert (Hsaved : fs (after_save E f w) !! p = fs w !! p).
  { cbn [fs after_save]. apply lookup_insert_ne. congruence. }
  destruct (fitz_pages E (stream f)) as [pages|]; [|exact Hsaved].
  destruct (extract_knowledge_triples E (concat pages) (after_save E f w))
    as [[triples|e] w2] eqn:Hex;
    apply extract_effects in Hex as (Hfs & Hcount & _ & _);
    cbn [uuid_count after_save] in Hcount.
  2:{ cbn [snd]. now rewrite Hfs. }
  destruct (truthy triples); [|cbn [snd]; now rewrite Hfs].
  destruct (build_graph triples) as [G|e]; cbn [snd fs]; [|now rewrite Hfs].
  unfold image_path_of. rewrite Hcount, lookup_insert_ne by congruence.
  now rewrite Hfs.
Qed.

(** X23. An image that [serve_static] sends stays available after any
    later upload, whatever that upload does (answer, raise, write its
    own image): the same name is answered with the same file. It holds
    when the later request draws fresh names, that is, when the two
    paths it may write differ from the path served. *)
Theorem image_stays_available (E : env) (req : request) (w : world)
    (name path : pystr) (f : file) :
  serve_static E name w = SendFile path f ->
  path <> pdf_path_of E w ->
  path <> path_join (GENERATED_FOLDER E) (uuid4_hex E (S (uuid_count w)) ++ lit ".png") ->
  serve_static E name (snd (upload_pdf E req w)) = SendFile path f.
Proof.
  intros Hserve Hpdf Himg. revert Hserve.
  unfold serve_static, send_from_directory.
  destruct (safe_join (GENERATED_FOLDER E) name) as [joined|]; [|discriminate].
  unfold os_isfile.
  destruct (endswith [SLASH] _ || endswith (lit "/.") _); [discriminate|].
  destruct (fs w !! path_join (BASE_DIR E) joined) as [f0|] eqn:Hold; [|discriminate].
  intros [= <- <-]. now rewrite (upload_frame E req w _ Hpdf Himg), Hold.
Qed.

Lemma image_stays_available_witness :
  let reply := jlit "[{'subject': 'Alice', 'predicate': 'knows', 'object': 'Bob'}]" in
  let E := env_replying reply in
  let w := snd (upload_pdf E (request_with "paper.pdf" (lit "Alice knows Bob.")) world0) in
  let image := FileImage (draw (add_labelled empty_graph
                 (NodeStr (lit "Alice"), NodeStr (lit "Bob"), PyStr (lit "knows")))) in
  serve_static E (lit "00.png")
    (snd (upload_pdf E (request_with "other.pdf" (lit "Carol meets Dan.")) w))
  = SendFile (lit "/app/generated/00.png") image.
Proof.
  intros reply E w image.
  apply (image_stays_available E (request_with "other.pdf" (lit "Carol meets Dan.")) w
           (lit "00.png") (lit "/app/generated/00.png") image).
  - vm_compute. reflexivity.
  - vm_compute. discriminate.
  - vm_compute. discriminate.
Defined.

(** X24. The file name the client sends is never used: two requests
    whose uploaded files have the same content and any two non-empty
    names get the same answer and leave the same world. In particular
    no path is built from the client's file name. *)
Theorem upload_ignores_client_file_name (E : env) (req req' : request)
    (f f' : FileStorage) (w : world) :
  files req !! lit "pdf" = Some f ->
  files req' !! lit "pdf" = Some f' ->
  filename f <> [] -> filename f' <> [] ->
  stream f = stream f' ->
  upload_pdf E req w = upload_pdf E req' w.
Proof.
  intros Hf Hf' Hn Hn' Hs. rewrite !upload_cases, Hf, Hf'.
  assert (Hhas : forall g, filename g <> [] -> has_file (Some g) = true).
  { intros g Hg. cbn. destruct (filename g); [congruence|reflexivity]. }
  rewrite (Hhas f Hn), (Hhas f' Hn').
  assert (Hw : after_save E f w = after_save E f' w).
  { unfold after_save. now rewrite Hs. }
  now rewrite Hs, Hw.
Qed.

Lemma upload_ignores_client_file_name_witness :
  let E := env_replying (lit "[]") in
  upload_pdf E (request_with "paper.pdf" (lit "Alice knows Bob.")) world0
  = upload_pdf E (request_with "../../etc/passwd" (lit "Alice knows Bob.")) world0.
Proof.
  intros E.
  apply (upload_ignores_client_file_name E _ _
           (mkFile (lit "paper.pdf") (lit "Alice knows Bob."))
           (mkFile (lit "../../etc/passwd") (lit "Alice knows Bob."))).
  - reflexivity.
  - reflexivity.
  - discriminate.
  - discriminate.
  - reflexivity.
Defined.

(** ** Replies that do not begin with JSON *)

(** Stripping on the right keeps everything up to a character that is
    no whitespace, and takes away an end of what follows it. *)
Lemma rstrip_prefix (p : pystr) (c : N) (s : pystr) :
  py_isspace c = false ->
  exists s' tail, rstrip (p ++ c :: s) = p ++ c :: s' /\ s = s' ++ tail.
Proof.
  intros Hc. induction s as [|x s IH] using rev_ind.
  - exists [], []. split; [|reflexivity].
    now rewrite rstrip_snoc, Hc.
  - replace (p ++ c :: s ++ [x]) with ((p ++ c :: s) ++ [x])
      by now rewrite <- app_assoc.
    rewrite rstrip_snoc. destruct (py_isspace x).
    + destruct IH as (s' & tail & -> & ->). exists s', (tail ++ [x]).
      split; [reflexivity|]. now rewrite app_assoc.
    + exists (s ++ [x]), []. split; [now rewrite <- app_assoc|now rewrite app_nil_r].
Qed.

(** A text whose first character cannot begin a JSON value is refused. *)
Lemma loads_bad_head (c : N) (s : pystr) :
  lex_start c = None -> loads (c :: s) = Raise JSONDecodeError.
Proof.
  intros Hc. unfold loads, tokenize. cbn [lex_run lstep]. now rewrite Hc.
Qed.

(** X25. A reply that begins, directly or right after an opening
    fence, with a character that cannot begin a JSON value is a parse
    failure: the extractor returns the empty list and prints the two
    lines. This is the case of prose before the JSON and of a fence
    with a tag other than [json], such as [python], whatever JSON
    follows: only the [json] tag is removed with the fence. *)
Theorem reply_not_opening_with_json_gives_no_triples
    (E : env) (text opening : pystr) (c : N) (rest : pystr) (w : world) :
  model_reply E (length (prompts w)) (prompt_of text) = Ok (opening ++ c :: rest) ->
  opening = [] \/ (opening = ticks /\ startswith (lit "json") (c :: rest) = false) ->
  lex_start c = None -> py_isspace c = false -> c <> BT ->
  extract_knowledge_triples E text w =
    (Ok (PyList []),
     mkWorld (fs w) ((stdout w ++ [parse_failure_line]) ++ [raw_of (opening ++ c :: rest)])
             (uuid_count w) (prompts w ++ [prompt_of text])).
Proof.
  intros Hreply Hopen Hstart Hspace Hbt.
  rewrite (extract_unfold _ _ _ _ Hreply).
  assert (Hclean : exists s, cleaned_of (raw_of (opening ++ c :: rest)) = c :: s).
  { assert (Hsub : forall s' (bol : bool), exists s, strip (re_sub_fence 0 bol (c :: s')) = c :: s).
    { intros s' bol. cbn [re_sub_fence]. rewrite (fence_match_other _ _ _ Hbt).
      unfold strip. rewrite (lstrip_id _ _ Hspace). now apply rstrip_head. }
    unfold cleaned_of, raw_of, strip.
    destruct Hopen as [->|[-> Hjson]].
    - cbn [app]. rewrite (lstrip_id _ _ Hspace).
      destruct (rstrip_prefix [] c rest Hspace) as (s' & tail & Hr & _).
      cbn [app] in Hr. rewrite Hr. apply Hsub.
    - assert (Hl : lstrip (ticks ++ c :: rest) = ticks ++ c :: rest) by reflexivity.
      rewrite Hl.
      destruct (rstrip_prefix ticks c rest Hspace) as (s' & tail & Hr & Htail).
      rewrite Hr, re_sub_fence_plain_opening; [apply Hsub|].
      destruct (startswith (lit "json") (c :: s')) eqn:Hs; [|reflexivity].
      apply (startswith_app _ _ tail) in Hs.
      change ((c :: s') ++ tail) with (c :: s' ++ tail) in Hs.
      rewrite <- Htail in Hs. congruence. }
  destruct Hclean as [s ->]. rewrite (loads_bad_head _ _ Hstart). reflexivity.
Qed.

Lemma reply_not_opening_with_json_gives_no_triples_witness :
  let reply := ticks ++ lit "python" ++ NL ::
               jlit "[{'subject': 'Alice', 'predicate': 'knows', 'object': 'Bob'}]"
               ++ NL :: ticks in
  extract_knowledge_triples (env_replying reply) (lit "Alice knows Bob.") world0 =
    (Ok (PyList []),
     mkWorld ∅ [parse_failure_line; reply] 0 [prompt_of (lit "Alice knows Bob.")]).
Proof.
  intros reply.
  apply (reply_not_opening_with_json_gives_no_triples (env_replying reply)
           (lit "Alice knows Bob.") ticks 112%N
           (lit "ython" ++ NL ::
            jlit "[{'subject': 'Alice', 'predicate': 'knows', 'object': 'Bob'}]"
            ++ NL :: ticks) world0).
  - reflexivity.
  - right. split; reflexivity.
  - reflexivity.
  - reflexivity.
  - discriminate.
Defined.
